(** * The filtering core of the bot: action merge, action application, dispatch

    A shallow embedding of
      - [bot/exts/filtering/_filter_context.py]   (the filtering context),
      - [bot/exts/filtering/_settings_types/infraction_and_notification.py]
        (the infraction enumeration, the entry constructor, the merge
        [__or__] with its two helpers, and [action]),
      - [bot/exts/filtering/filtering.py]         ([on_message], [_send_alert],
        [subscribe], [init_cog]),
      - [bot/exts/utils/thread_bumper.py]         (the bump list of threads),
    followed by the properties of the specification checked against it and by
    further properties of the code.

    Conventions of the embedding.
      - A Python [str] is the list of its code points.
      - Python is dynamically typed and the merge passes values of one type
        where another is expected; the values that can meet are gathered in
        [value], and a function that can raise returns a [res].
      - The durations of the infractions are whole numbers of seconds of
        magnitude at most 2^53.  The source keeps them as floats, and each of
        these numbers is a float; the merge only compares them and takes
        their maximum, which is exact on floats, so they are taken in [Z].
      - Times are in microseconds, the resolution of [datetime].  A
        [timedelta] and a date have a range, outside of which the source
        raises [OverflowError].
      - Where the source multiplies and subtracts floats, in the thread
        bumper, a float is the rational it stands for and each operation
        rounds as the machine does.
      - Calls to the chat platform are recorded, in order, in a log, and the
        clock is read anew before each request that needs it. *)

From Stdlib Require Import ZArith NArith List Bool Ascii String Lia.
From Stdlib Require Import QArith Qround Qabs Qpower Lqa.
Import ListNotations.

Close Scope Q_scope.

Set Implicit Arguments.

(** ** Python strings, values and exceptions *)

Module Py.

(** A string is its sequence of code points. *)
Definition str := list N.

(** An ASCII literal of the source. *)
Definition lit (s : string) : str :=
  List.map N_of_ascii (list_ascii_of_string s).

Fixpoint str_eqb (a b : str) : bool :=
  match a, b with
  | [], [] => true
  | x :: a', y :: b' => N.eqb x y && str_eqb a' b'
  | _, _ => false
  end.

(** [s.startswith(p)] *)
Fixpoint startswith (s p : str) {struct p} : bool :=
  match p with
  | [] => true
  | c :: p' =>
      match s with
      | [] => false
      | d :: s' => N.eqb d c && startswith s' p'
      end
  end.

(** [s.replace(" ", "_")]: both are one code point long. *)
Definition replace_space (s : str) : str :=
  List.map (fun c => if N.eqb c 32 then 95%N else c) s.

(** [s.upper()] and [s.lower()] on the ASCII letters.  Python also maps
    letters outside ASCII (some of them to ASCII ones); the code points
    outside ASCII are left as they are here. *)
Definition upper (s : str) : str :=
  List.map (fun c => if (97 <=? c)%N && (c <=? 122)%N then (c - 32)%N else c) s.

Definition lower (s : str) : str :=
  List.map (fun c => if (65 <=? c)%N && (c <=? 90)%N then (c + 32)%N else c) s.

(** [sep.join(parts)] *)
Fixpoint join (sep : str) (parts : list str) : str :=
  match parts with
  | [] => []
  | [p] => p
  | p :: rest => p ++ sep ++ join sep rest
  end.

(** The values the merge handles: [None], a string, a number. *)
Inductive value : Type :=
| VNone
| VStr (s : str)
| VNum (z : Z).

(** Truth value of [v] in a condition. *)
Definition truthy (v : value) : bool :=
  match v with
  | VNone => false
  | VStr [] => false
  | VStr (_ :: _) => true
  | VNum z => negb (Z.eqb z 0)
  end.

(** [a == b] *)
Definition value_eqb (a b : value) : bool :=
  match a, b with
  | VNone, VNone => true
  | VStr s, VStr t => str_eqb s t
  | VNum x, VNum y => Z.eqb x y
  | _, _ => false
  end.

(** An optional duration seen as a value. *)
Definition of_duration (d : option Z) : value :=
  match d with
  | None => VNone
  | Some z => VNum z
  end.

Inductive exn : Type :=
| TypeError
| AttributeError
| KeyError
| OverflowError
| Forbidden
| NotFound
| HTTPException.

(** The outcome of a call: a value, or a raised exception. *)
Inductive res (A : Type) : Type :=
| Ok (a : A)
| Raise (e : exn).

Arguments Ok {A} a.
Arguments Raise {A} e.

Definition bind {A B : Type} (r : res A) (k : A -> res B) : res B :=
  match r with
  | Ok a => k a
  | Raise e => Raise e
  end.

End Py.

Import Py.

Declare Scope res_scope.
Delimit Scope res_scope with res.
Notation "x <- r ;; k" := (Py.bind r (fun x => k))
  (at level 61, r at next level, right associativity) : res_scope.

(** ** [class Infraction(Enum)] *)

Inductive Infraction : Type :=
| BAN | KICK | MUTE | VOICE_BAN | WARNING | WATCH | SUPERSTAR | NOTE | NONE.

Module InfractionEnum.

(** [auto()] numbers the members from 1 in the order of declaration. *)
Definition value (i : Infraction) : Z :=
  match i with
  | BAN => 1 | KICK => 2 | MUTE => 3 | VOICE_BAN => 4 | WARNING => 5
  | WATCH => 6 | SUPERSTAR => 7 | NOTE => 8 | NONE => 9
  end.

Definition name (i : Infraction) : str :=
  match i with
  | BAN => lit "BAN" | KICK => lit "KICK" | MUTE => lit "MUTE"
  | VOICE_BAN => lit "VOICE_BAN" | WARNING => lit "WARNING"
  | WATCH => lit "WATCH" | SUPERSTAR => lit "SUPERSTAR"
  | NOTE => lit "NOTE" | NONE => lit "NONE"
  end.

Definition eqb (a b : Infraction) : bool := Z.eqb (value a) (value b).

Definition members : list Infraction :=
  [BAN; KICK; MUTE; VOICE_BAN; WARNING; WATCH; SUPERSTAR; NOTE; NONE].

(** [Infraction[s]]: the member named [s], [KeyError] when there is none. *)
Definition getitem (s : str) : res Infraction :=
  match List.find (fun i => str_eqb (name i) s) members with
  | Some i => Ok i
  | None => Raise KeyError
  end.

(** [__bool__]: [NONE] is false-y. *)
Definition __bool__ (i : Infraction) : bool := negb (eqb i NONE).

End InfractionEnum.

(** ** [_filter_context.py] *)

Module FilterContext.

Inductive Event : Type := MESSAGE | MESSAGE_EDIT.

(** The platform's objects, as far as the filtering code reads them. *)
Record User : Type := {
  user_id : N;
  mention : str;
  avatar_url : str;
  bot : bool
}.

Record Channel : Type := {
  channel_id : N;
  guild : option N
}.

Record Embed : Type := {
  description : value;
  colour : option Z;
  thumbnail : option str
}.

(** [Embed()] *)
Definition Embed_empty : Embed :=
  {| description := VNone; colour := None; thumbnail := None |}.

Record Message : Type := {
  msg_author : User;
  msg_channel : Channel;
  msg_content : str;
  msg_embeds : list Embed;
  jump_url : str
}.

Record t : Type := {
  (* Input context *)
  event : Event;
  author : User;
  channel : Channel;
  content : str;
  message : option Message;
  embeds : list Embed;
  (* Output context *)
  dm_content : str;
  dm_embed : Embed;
  send_alert : bool;
  alert_content : str;
  alert_embeds : list Embed;
  action_descriptions : list str;
  matches : list str
}.

(** [FilterContext(event, author, channel, content, message, embeds)]: the
    output fields take their defaults. *)
Definition make (e : Event) (a : User) (c : Channel) (txt : str)
    (m : option Message) (es : list Embed) : t :=
  {| event := e; author := a; channel := c; content := txt; message := m;
     embeds := es;
     dm_content := []; dm_embed := Embed_empty; send_alert := true;
     alert_content := []; alert_embeds := []; action_descriptions := [];
     matches := [] |}.

(** The two in-place updates [action] makes. *)
Definition set_dm_embed (ctx : t) (e : Embed) : t :=
  {| event := event ctx; author := author ctx; channel := channel ctx;
     content := content ctx; message := message ctx; embeds := embeds ctx;
     dm_content := dm_content ctx; dm_embed := e;
     send_alert := send_alert ctx; alert_content := alert_content ctx;
     alert_embeds := alert_embeds ctx;
     action_descriptions := action_descriptions ctx;
     matches := matches ctx |}.

Definition append_description (ctx : t) (d : str) : t :=
  {| event := event ctx; author := author ctx; channel := channel ctx;
     content := content ctx; message := message ctx; embeds := embeds ctx;
     dm_content := dm_content ctx; dm_embed := dm_embed ctx;
     send_alert := send_alert ctx; alert_content := alert_content ctx;
     alert_embeds := alert_embeds ctx;
     action_descriptions := action_descriptions ctx ++ [d];
     matches := matches ctx |}.

End FilterContext.

(** ** The platform: what the code asks of it, and how it answers *)

Module Platform.

Import FilterContext.

(** A request to the platform, as the code makes it.  The expiry of a
    command is a time in microseconds since the epoch. *)
Inductive call : Type :=
| AuthorSend (u : User) (text : str) (embed : Embed)
| ChannelSend (c : Channel) (text : str) (embed : Embed)
| Invoke (command : str) (c : Channel) (target : User) (expiry : Z)
    (reason : value)
| WebhookSend (username : str) (text : str) (embeds : list Embed).

(** The answers of the platform and of the helpers outside this code. *)
Record Env : Type := {
  author_send : User -> str -> Embed -> res unit;
  channel_send : Channel -> str -> Embed -> res unit;
  invoke : str -> Channel -> User -> Z -> value -> res unit;
  webhook_send : str -> str -> list Embed -> res unit;
  utcnow : list call -> Z;        (* arrow.utcnow(), read after these requests *)
  mod_alerts : Channel;           (* get_channel(Channels.mod_alerts) *)
  str_of_num : Z -> str;          (* how a float prints *)
  str_of_int : Z -> str;          (* how an int prints *)
  format_user : User -> str;
  format_channel : Channel -> str;
  escape_markdown : str -> str;
  repr : str -> str;
  title : str -> str;             (* str.title() *)
  soft_orange : Z                 (* Colours.soft_orange *)
}.

(** The state a dispatch works on: the context it mutates and the requests
    made so far. *)
Record World : Type := {
  ctx : FilterContext.t;
  calls : list call
}.

(** A computation that reads and updates the world and may raise.  What it
    did before raising stays done. *)
Definition M (A : Type) : Type := World -> res A * World.

Definition ret {A : Type} (a : A) : M A := fun w => (Ok a, w).

Definition bind {A B : Type} (m : M A) (k : A -> M B) : M B :=
  fun w =>
    match m w with
    | (Ok a, w') => k a w'
    | (Raise e, w') => (Raise e, w')
    end.

Definition lift {A : Type} (r : res A) : M A := fun w => (r, w).

Definition get_ctx : M FilterContext.t := fun w => (Ok (ctx w), w).

(** [arrow.utcnow()]: the clock at this point of the run.  Times are in
    microseconds since the epoch, the resolution of the dates of Python. *)
Definition read_clock (env : Env) : M Z := fun w => (Ok (utcnow env (calls w)), w).

Definition modify_ctx (f : FilterContext.t -> FilterContext.t) : M unit :=
  fun w => (Ok tt, {| ctx := f (ctx w); calls := calls w |}).

(** Make a request: it is logged, then the platform answers. *)
Definition request (c : call) (answer : res unit) : M unit :=
  fun w => (answer, {| ctx := ctx w; calls := calls w ++ [c] |}).

(** [try: body  except e: handler] *)
Definition try_except (body : M unit) (e : exn -> bool) (handler : M unit)
    : M unit :=
  fun w =>
    match body w with
    | (Raise x, w') => if e x then handler w' else (Raise x, w')
    | r => r
    end.

Definition is_Forbidden (e : exn) : bool :=
  match e with Forbidden => true | _ => false end.

(** A value inside an f-string. *)
Definition format_value (env : Env) (v : value) : str :=
  match v with
  | VNone => lit "None"
  | VStr s => s
  | VNum z => str_of_num env z
  end.

Definition newline : str := [10%N].

End Platform.

Declare Scope world_scope.
Delimit Scope world_scope with world.
Notation "x <- m ;; k" := (Platform.bind m (fun x => k))
  (at level 61, m at next level, right associativity) : world_scope.
Notation "m ;; k" := (Platform.bind m (fun _ => k))
  (at level 61, right associativity) : world_scope.

(** ** [class InfractionAndNotification(ActionEntry)] *)

Module InfractionAndNotification.

Import FilterContext Platform.

(** What [entry_data] holds under ["infraction_type"]: [None], a name from
    the rule's configuration, or (put there by [__or__]) a member of the
    enumeration. *)
Inductive type_datum : Type :=
| TNone
| TName (s : str)
| TMember (i : Infraction).

(** The embedded superstar: a pair (reason, duration). *)
Definition superstar_datum : Type := (value * option Z)%type.

(** [entry_data], the dictionary the constructor reads.  Its keys are
    ["infraction_type"], ["infraction_reason"], ["infraction_duration"],
    ["dm_content"], ["dm_embed"] and, read with [.get], ["superstar"]. *)
Record entry_data : Type := {
  ed_infraction_type : type_datum;
  ed_infraction_reason : value;
  ed_infraction_duration : option Z;
  ed_dm_content : value;
  ed_dm_embed : value;
  ed_superstar : option superstar_datum
}.

Record t : Type := {
  infraction_type : Infraction;
  infraction_reason : value;
  infraction_duration : option Z;
  dm_content : value;
  dm_embed : value;
  _superstar : option superstar_datum
}.

(** [__init__].  Reading [.replace] of a member of the enumeration raises
    [AttributeError]; a name that is no member's raises [KeyError].  The
    constructor of the parent class, which is outside these files, is taken
    to leave [entry_data] as it is.  Durations are whole numbers of seconds
    of magnitude at most 2^53, and [float] of such a number is that number
    ([Float.of_int] below); the code rounds the larger ones, which are
    outside the model. *)
Definition __init__ (d : entry_data) : res t :=
  (ty <- match ed_infraction_type d with
         | TNone => Ok NONE
         | TName s =>
             if truthy (VStr s)
             then InfractionEnum.getitem (upper (replace_space s))
             else Ok NONE
         | TMember i =>
             if InfractionEnum.__bool__ i
             then Raise AttributeError
             else Ok NONE
         end ;;
   Ok {| infraction_type := ty;
         infraction_reason := ed_infraction_reason d;
         infraction_duration := ed_infraction_duration d;
         dm_content := ed_dm_content d;
         dm_embed := ed_dm_embed d;
         _superstar := ed_superstar d |})%res.

Definition bullet : str := [8226%N].
Definition bullet_space : str := [8226%N; 32%N].
Definition blank_line : str := [10%N; 10%N].

(** [if not message.startswith("•"): message = "• " + message].  Only a
    string has the method [startswith]. *)
Definition bulleted (message : value) : res str :=
  match message with
  | VStr s => Ok (if negb (startswith s bullet) then bullet_space ++ s else s)
  | _ => Raise AttributeError
  end.

(** [_merge_messages] *)
Definition _merge_messages (message1 message2 : value) : res value :=
  if negb (truthy message1) && negb (truthy message2) then Ok (VStr [])
  else if negb (truthy message1) || value_eqb message1 message2
  then Ok message2
  else if negb (truthy message2) then Ok message1
  else
    (s1 <- bulleted message1 ;;
     s2 <- bulleted message2 ;;
     Ok (VStr (s1 ++ blank_line ++ s2)))%res.

(** [_merge_durations]: [None] is permanent. *)
Definition _merge_durations (duration1 duration2 : option Z) : option Z :=
  match duration1, duration2 with
  | Some d1, Some d2 => Some (Z.max d1 d2)
  | _, _ => None
  end.

(** The annotation of a message is [Optional[str]]: [None] or a string. *)
Definition is_text (v : value) : bool :=
  match v with
  | VNum _ => false
  | _ => true
  end.

(** An entry whose three messages are as annotated. *)
Definition annotated (e : t) : bool :=
  is_text (infraction_reason e) && is_text (dm_content e) && is_text (dm_embed e).

Definition is_SUPERSTAR (i : Infraction) : bool :=
  str_eqb (InfractionEnum.name i) (lit "SUPERSTAR").

Section Merge.

(** [ActionEntry.to_dict] is inherited from a class outside these files:
    the dictionary representation of an entry. *)
Variable to_dict : t -> entry_data.

Definition with_superstar (d : entry_data) (s : option superstar_datum)
    : entry_data :=
  {| ed_infraction_type := ed_infraction_type d;
     ed_infraction_reason := ed_infraction_reason d;
     ed_infraction_duration := ed_infraction_duration d;
     ed_dm_content := ed_dm_content d;
     ed_dm_embed := ed_dm_embed d;
     ed_superstar := s |}.

(** The branch of [__or__] for two different infractions one of which is
    a superstarify. *)
Definition or_superstar (self other : t) : res t :=
  let superstar :=
    if is_SUPERSTAR (infraction_type self)
    then _superstar self else _superstar other in
  let other_superstar :=
    match _superstar self with
    | Some s => Some s
    | None => _superstar other
    end in
  let other_type :=
    if negb (is_SUPERSTAR (infraction_type self)) then self else other in
  let data := to_dict other_type in
  (data <- match other_superstar with
           | Some (reason2, duration2) =>
               match superstar with
               | None => Raise TypeError        (* None[0] *)
               | Some (reason1, duration1) =>
                   m <- _merge_messages reason1 reason2 ;;
                   Ok (with_superstar data
                         (Some (m, _merge_durations duration1 duration2)))
               end
           | None =>
               (* superstar.infraction_reason: neither None nor a pair
                  has the attribute *)
               Raise AttributeError
           end ;;
   __init__ data)%res.

(** The other branch: the infractions are equal, or none is a
    superstarify. *)
Definition or_plain (self other : t) : res t :=
  let '(ty, duration) :=
    if negb (InfractionEnum.eqb (infraction_type self) (infraction_type other))
    then
      let '(higher, lower) :=
        if (InfractionEnum.value (infraction_type self)
            >? InfractionEnum.value (infraction_type other))%Z
        then (other, self) else (self, other) in
      (TName (InfractionEnum.name (infraction_type higher)),
       infraction_duration higher)
    else
      (TMember (infraction_type self),
       _merge_durations (infraction_duration self) (infraction_duration other)) in
  (reason <- _merge_messages (infraction_reason self) (infraction_reason other) ;;
   content <- _merge_messages (dm_content self) (dm_content other) ;;
   embed <- _merge_messages (dm_embed self) (dm_embed other) ;;
   superstar <-
     match _superstar self, _superstar other with
     | None, s => Ok s
     | Some s, None => Ok (Some s)
     | Some (reason1, duration1), Some (_, duration2) =>
         m <- _merge_messages reason1 (of_duration duration2) ;;
         Ok (Some (m, _merge_durations duration1 duration2))
     end ;;
   __init__ {| ed_infraction_type := ty;
               ed_infraction_reason := reason;
               ed_infraction_duration := duration;
               ed_dm_content := content;
               ed_dm_embed := embed;
               ed_superstar := superstar |})%res.

(** [__or__], for [other] an [InfractionAndNotification]. *)
Definition __or__ (self other : t) : res t :=
  if InfractionEnum.eqb (infraction_type self) NONE then Ok other
  else if InfractionEnum.eqb (infraction_type other) NONE then Ok self
  else if negb (InfractionEnum.eqb (infraction_type self) (infraction_type other))
          && (is_SUPERSTAR (infraction_type self)
              || is_SUPERSTAR (infraction_type other))
  then or_superstar self other
  else or_plain self other.

End Merge.

(** [Colour.og_blurple()], 0x7289DA. *)
Definition og_blurple : Z := 7506394.

(** [timedelta(seconds=d)], in microseconds.  [None] is no number of seconds
    ([TypeError]); a [timedelta] holds at most 999999999 days in magnitude,
    from -999999999 days to 999999999 days, 23 hours, 59 minutes and 59
    seconds ([OverflowError] outside). *)
Definition timedelta (seconds : option Z) : res Z :=
  match seconds with
  | Some d =>
      if (-86399999913600 <=? d)%Z && (d <=? 86399999999999)%Z
      then Ok (1000000 * d)%Z
      else Raise OverflowError
  | None => Raise TypeError
  end.

(** [now + delta] on dates: the calendar runs from the first instant of the
    year 1 to the last of the year 9999 ([OverflowError] outside). *)
Definition datetime_add (now delta : Z) : res Z :=
  let t := (now + delta)%Z in
  if (-62135596800000000 <=? t)%Z && (t <=? 253402300799999999)%Z
  then Ok t
  else Raise OverflowError.

(** [arrow.utcnow() + timedelta(seconds=d)] *)
Definition expiry (env : Env) (seconds : option Z) : M Z :=
  (now <- read_clock env ;;
   delta <- lift (timedelta seconds) ;;
   lift (datetime_add now delta))%world.

(** [bot.instance.get_context(ctx.message)]: the command context of the
    message, of which [action] uses the channel. *)
Definition get_context (m : option Message) : res Channel :=
  match m with
  | Some m => Ok (msg_channel m)
  | None => Raise AttributeError
  end.

Definition set_description (e : Embed) (d : value) : Embed :=
  {| description := d; colour := colour e; thumbnail := thumbnail e |}.

Definition set_colour (e : Embed) (c : Z) : Embed :=
  {| description := description e; colour := Some c; thumbnail := thumbnail e |}.

(** The notification step of [action]. *)
Definition notify (env : Env) (self : t) : M unit :=
  (c <- get_ctx ;;
   dm_content <- lift (_merge_messages (VStr (FilterContext.dm_content c))
                         (dm_content self)) ;;
   dm_embed <- lift (_merge_messages (description (FilterContext.dm_embed c))
                       (dm_embed self)) ;;
   if truthy dm_content || truthy dm_embed then
     let dm_content :=
       lit "Hey " ++ mention (author c) ++ lit "!" ++ newline
           ++ format_value env dm_content in
     modify_ctx (fun c =>
       set_dm_embed c (set_description (FilterContext.dm_embed c) dm_embed)) ;;
     modify_ctx (fun c =>
       match colour (FilterContext.dm_embed c) with
       | None => set_dm_embed c (set_colour (FilterContext.dm_embed c) og_blurple)
       | Some _ => c
       end) ;;
     try_except
       (c <- get_ctx ;;
        request (AuthorSend (author c) dm_content (FilterContext.dm_embed c))
                (author_send env (author c) dm_content (FilterContext.dm_embed c)))
       is_Forbidden
       (c <- get_ctx ;;
        request (ChannelSend (channel c) (FilterContext.dm_content c)
                   (FilterContext.dm_embed c))
                (channel_send env (channel c) (FilterContext.dm_content c)
                   (FilterContext.dm_embed c))) ;;
     modify_ctx (fun c => append_description c (lit "notified"))
   else ret tt)%world.

(** [action] *)
Definition action (env : Env) (self : t) : M unit :=
  (notify env self ;;
   c <- get_ctx ;;
   msg_ctx_channel <- lift (get_context (message c)) ;;
   match _superstar self with
   | Some (reason, duration) =>
       expires <- expiry env duration ;;
       request (Invoke (lit "superstar") msg_ctx_channel (author c)
                  expires reason)
               (invoke env (lit "superstar") msg_ctx_channel (author c)
                  expires reason) ;;
       modify_ctx (fun c => append_description c (lit "superstarred"))
   | None => ret tt
   end ;;
   if negb (InfractionEnum.eqb (infraction_type self) NONE) then
     let msg_ctx_channel :=
       if InfractionEnum.eqb (infraction_type self) BAN
          || match guild (channel c) with None => true | Some _ => false end
       then mod_alerts env else msg_ctx_channel in
     expires <- expiry env (infraction_duration self) ;;
     request (Invoke (InfractionEnum.name (infraction_type self))
                msg_ctx_channel (author c) expires
                (infraction_reason self))
             (invoke env (InfractionEnum.name (infraction_type self))
                msg_ctx_channel (author c) expires
                (infraction_reason self)) ;;
     modify_ctx (fun c =>
       append_description c (lower (InfractionEnum.name (infraction_type self))))
   else ret tt)%world.

End InfractionAndNotification.

(** ** [class Filtering(Cog)] *)

Module Filtering.

Import FilterContext Platform.

Definition truncation_marker : str := lit " [...]".

(** The last step of composing the alert body:
    [if len(embed_content) > 4000: embed_content = embed_content[:4000] + " [...]"] *)
Definition truncate (embed_content : str) : str :=
  if 4000 <? List.length embed_content
  then firstn 4000 embed_content ++ truncation_marker
  else embed_content.

(** ["\n".join(part for part in parts if part)], then the truncation. *)
Definition embed_description (parts : list str) : str :=
  truncate (join newline (List.filter (fun part => truthy (VStr part)) parts)).

(** [ctx.event.name.replace('_', ' ')] *)
Definition event_words (e : Event) : str :=
  match e with
  | MESSAGE => lit "MESSAGE"
  | MESSAGE_EDIT => lit "MESSAGE EDIT"
  end.

Definition Event_eqb (a b : Event) : bool :=
  match a, b with
  | MESSAGE, MESSAGE => true
  | MESSAGE_EDIT, MESSAGE_EDIT => true
  | _, _ => false
  end.

Section Dispatch.

(** The set of actions of a filter ([filter_.actions]) is of a class
    outside these files; the dispatch merges two of them with [|] and
    applies the result with [.action(ctx)]. *)
Variable Actions : Type.
Variable actions_or : Actions -> Actions -> res Actions.
Variable actions_action : Env -> Actions -> M unit.

Record Filter : Type := {
  filter_id : Z;
  filter_content : str;
  filter_description : value;
  actions : Actions
}.

(** A filter list: its identity as a dictionary key, its name, and the
    filters it reports for a context. *)
Record FilterList : Type := {
  list_key : N;
  list_name : str;
  triggers_for : FilterContext.t -> list Filter
}.

Record Cog : Type := {
  _subscriptions : Event -> list FilterList;
  webhook : option N
}.

(** [triggered[filter_list] = filters] on a dictionary kept in insertion
    order. *)
Fixpoint dict_set (d : list (FilterList * list Filter)) (k : FilterList)
    (v : list Filter) : list (FilterList * list Filter) :=
  match d with
  | [] => [(k, v)]
  | (k', v') :: d' =>
      if N.eqb (list_key k') (list_key k)
      then (k', v) :: d'
      else (k', v') :: dict_set d' k v
  end.

(** No key of the dictionary has a filter. *)
Definition all_empty (d : list (FilterList * list Filter)) : Prop :=
  Forall (fun p => snd p = []) d.

(** [reduce(operator.or_, xs)], without an initial value. *)
Definition reduce_or (xs : list Actions) : res Actions :=
  match xs with
  | [] => Raise TypeError
  | x :: rest =>
      fold_left (fun acc y => (a <- acc ;; actions_or a y)%res) rest (Ok x)
  end.

Definition filter_ref (env : Env) (f : Filter) : str :=
  lit "#" ++ str_of_int env (filter_id f) ++ lit " (`"
      ++ filter_content f ++ lit "`)".

Definition list_header (env : Env) (l : FilterList) : str :=
  lit "**" ++ title env (list_name l) ++ lit " Filters:** ".

(** The summary of the filters that triggered.  In the general case the
    source writes the header and [", "] as two adjacent literals, which
    Python joins into one separator. *)
Definition filters_summary (env : Env)
    (triggered_filters : list (FilterList * list Filter)) : str :=
  match triggered_filters with
  | [(filter_list, [filter_])] =>
      let filters := list_header env filter_list ++ filter_ref env filter_ in
      if truthy (filter_description filter_)
      then filters ++ lit " - " ++ format_value env (filter_description filter_)
      else filters
  | _ =>
      join newline
        (List.map (fun '(filter_list, list_filters) =>
                     join (list_header env filter_list ++ lit ", ")
                          (List.map (filter_ref env) list_filters))
                  triggered_filters)
  end.

(** The parts of the alert body, in order. *)
Definition alert_parts (env : Env) (c : FilterContext.t) (m : Message)
    (triggered_filters : list (FilterList * list Filter)) : list str :=
  let triggered_by := lit "**Triggered by:** " ++ format_user env (author c) in
  let triggered_in :=
    match guild (channel c) with
    | Some _ => lit "**Triggered in:** " ++ format_channel env (channel c)
    | None => lit "**DM**"
    end in
  let filters := filters_summary env triggered_filters in
  let matches_ :=
    lit "**Matches:** " ++ join (lit ", ") (List.map (repr env) (matches c)) in
  let actions_ :=
    lit "**Actions Taken:** "
        ++ match action_descriptions c with
           | [] => lit "-"
           | ds => join (lit ", ") ds
           end in
  let content_ :=
    lit "**[Original Content](" ++ jump_url m ++ lit ")**: "
        ++ escape_markdown env (content c) in
  [triggered_by; triggered_in; filters; matches_; actions_; content_].

(** [_send_alert] *)
Definition _send_alert (env : Env) (self : Cog)
    (triggered_filters : list (FilterList * list Filter)) : M unit :=
  match webhook self with
  | None => ret tt
  | Some _ =>
      (c <- get_ctx ;;
       let name := title env (event_words (event c)) ++ lit " Filter" in
       m <- lift (match message c with
                  | Some m => Ok m
                  | None => Raise AttributeError
                  end) ;;
       let embed :=
         {| description :=
              VStr (embed_description (alert_parts env c m triggered_filters));
            colour := Some (soft_orange env);
            thumbnail := Some (avatar_url (author c)) |} in
       request (WebhookSend name (alert_content c) (embed :: alert_embeds c))
               (webhook_send env name (alert_content c)
                  (embed :: alert_embeds c)))%world
  end.

(** What a run of [on_message] leaves: how it ended, the context it built
    (none for a message of a bot), and the requests made. *)
Definition outcome : Type := (res unit * option FilterContext.t * list call)%type.

(** [FilterContext(Event.MESSAGE, msg.author, msg.channel, msg.content, msg, msg.embeds)] *)
Definition new_context (msg : Message) : FilterContext.t :=
  FilterContext.make MESSAGE (msg_author msg) (msg_channel msg)
    (msg_content msg) (Some msg) (msg_embeds msg).

(** [on_message] *)
Definition on_message (env : Env) (self : Cog) (msg : Message)
    (log : list call) : outcome :=
  if bot (msg_author msg) then (Ok tt, None, log)
  else
    let ctx0 := new_context msg in
    let triggered :=
      fold_left (fun d filter_list =>
                   dict_set d filter_list (triggers_for filter_list ctx0))
                (_subscriptions self MESSAGE) [] in
    let run : M unit :=
      match triggered with
      | [] => ret tt
      | _ :: _ =>
          (result_actions <-
             lift (reduce_or
                     (List.flat_map (fun '(_, filters) => List.map actions filters)
                                    triggered)) ;;
           actions_action env result_actions ;;
           c <- get_ctx ;;
           if send_alert c then _send_alert env self triggered else ret tt)%world
      end in
    let '(r, w) := run {| ctx := ctx0; calls := log |} in
    (r, Some (ctx w), calls w).

(** [filter_list in lists]: a filter list is found when it is one of the
    objects of the list. *)
Definition list_in (filter_list : FilterList) (lists : list FilterList) : bool :=
  existsb (fun l => N.eqb (list_key l) (list_key filter_list)) lists.

(** One turn of the loop of [subscribe]:
    [if filter_list not in self._subscriptions[event]: self._subscriptions[event].append(filter_list)] *)
Definition subscribe_event (self : Cog) (filter_list : FilterList) (event : Event)
    : Cog :=
  if list_in filter_list (_subscriptions self event) then self
  else
    {| _subscriptions :=
         fun e =>
           if Event_eqb e event
           then _subscriptions self event ++ [filter_list]
           else _subscriptions self e;
       webhook := webhook self |}.

(** [subscribe(filter_list, *events)] *)
Definition subscribe (self : Cog) (filter_list : FilterList) (events : list Event)
    : Cog :=
  fold_left (fun self event => subscribe_event self filter_list event) events self.

(** The subscriptions keep no filter list twice. *)
Definition no_list_twice (self : Cog) : Prop :=
  forall e, NoDup (List.map list_key (_subscriptions self e)).

End Dispatch.

(** *** [init_cog] *)

(** A filter list as the API returns it: its name; the rest is opaque here. *)
Record RawFilterList : Type := {
  raw_name : str;
  raw_data : N
}.

(** What [init_cog] builds.  The filter lists are objects of classes outside
    these files: one is represented by the raw lists handed to its
    [add_list], in order, and [filter_lists] is the dictionary of them by
    name, in insertion order.  The warnings and errors are what is logged. *)
Record loading : Type := {
  filter_lists : list (str * list RawFilterList);
  fetched_webhook : option N;
  warnings : list str;
  errors : nat
}.

(** [name in d] *)
Definition name_in {A : Type} (name : str) (d : list (str * A)) : bool :=
  existsb (fun p => str_eqb (fst p) name) d.

(** [d[name].add_list(raw)]; [KeyError] when [name] is no key. *)
Fixpoint add_list (d : list (str * list RawFilterList)) (name : str)
    (raw : RawFilterList) : res (list (str * list RawFilterList)) :=
  match d with
  | [] => Raise KeyError
  | (n, raws) :: d' =>
      if str_eqb n name then Ok ((n, raws ++ [raw]) :: d')
      else (d'' <- add_list d' name raw ;; Ok ((n, raws) :: d''))%res
  end.

(** The loop of [init_cog] over the raw lists.  [filter_list_types] tells
    the names that have a class; [already_warned] is the local set.  What was
    done before an exception stays done. *)
Fixpoint load_lists (filter_list_types : str -> bool)
    (raw_filter_lists : list RawFilterList) (already_warned : list str)
    (self : loading) : res unit * loading :=
  match raw_filter_lists with
  | [] => (Ok tt, self)
  | raw_filter_list :: rest =>
      let list_name := raw_name raw_filter_list in
      let added (lists : list (str * list RawFilterList)) :=
        match add_list lists list_name raw_filter_list with
        | Ok lists' =>
            load_lists filter_list_types rest already_warned
              {| filter_lists := lists';
                 fetched_webhook := fetched_webhook self;
                 warnings := warnings self; errors := errors self |}
        | Raise e =>
            (Raise e,
             {| filter_lists := lists;
                fetched_webhook := fetched_webhook self;
                warnings := warnings self; errors := errors self |})
        end in
      if negb (name_in list_name (filter_lists self)) then
        if negb (filter_list_types list_name)
           && negb (existsb (str_eqb list_name) already_warned)
        then
          (* log.warning(...); already_warned.add(list_name); continue *)
          load_lists filter_list_types rest (list_name :: already_warned)
            {| filter_lists := filter_lists self;
               fetched_webhook := fetched_webhook self;
               warnings := warnings self ++ [list_name];
               errors := errors self |}
        else if filter_list_types list_name
        then added (filter_lists self ++ [(list_name, [])])
        else (Raise KeyError, self)       (* filter_list_types[list_name] *)
      else added (filter_lists self)
  end.

(** The state [__init__] leaves for [init_cog]. *)
Definition not_loaded : loading :=
  {| filter_lists := []; fetched_webhook := None; warnings := []; errors := 0 |}.

(** [except HTTPException]: the class and, among the exceptions here, its
    subclasses [Forbidden] and [NotFound]. *)
Definition is_HTTPException (e : exn) : bool :=
  match e with
  | HTTPException | Forbidden | NotFound => true
  | _ => false
  end.

(** [init_cog]: the loop, then the webhook.  [fetch_webhook] is the answer of
    [self.bot.fetch_webhook(Webhooks.filters)]. *)
Definition init_cog (filter_list_types : str -> bool)
    (raw_filter_lists : list RawFilterList) (fetch_webhook : res N)
    (self : loading) : res unit * loading :=
  match load_lists filter_list_types raw_filter_lists [] self with
  | (Raise e, self') => (Raise e, self')
  | (Ok _, self') =>
      match fetch_webhook with
      | Ok hook =>
          (Ok tt,
           {| filter_lists := filter_lists self'; fetched_webhook := Some hook;
              warnings := warnings self'; errors := errors self' |})
      | Raise e =>
          if is_HTTPException e
          then
            (Ok tt,
             {| filter_lists := filter_lists self';
                fetched_webhook := fetched_webhook self';
                warnings := warnings self'; errors := S (errors self') |})
          else (Raise e, self')
      end
  end.




End Filtering.

(** ** The words of the specification *)

Module Spec.

Import InfractionAndNotification.

(** "prefixing each with a bullet marker if not already present" *)
Definition with_bullet (m : str) : str :=
  if startswith m bullet then m else bullet_space ++ m.

(** "concatenate as two bullet points separated by a blank line" *)
Definition two_bullet_points (m1 m2 : str) : str :=
  with_bullet m1 ++ blank_line ++ with_bullet m2.

(** The fixed maximum of the alert body, and the bound on what is emitted:
    the maximum plus the six characters of the truncation marker, a space
    followed by an ellipsis in square brackets. *)
Definition max_body : nat := 4000.
Definition body_bound : nat := 4006.
Definition marker : str := [32; 91; 46; 46; 46; 93]%N.

End Spec.

(** ** Python floats

    A float is the rational number it stands for.  Each operation gives the
    exact result rounded to the nearest number with 53 significant bits, and
    to the one with an even last bit when two are as near.  The exponent is
    not bounded: the numbers met here are far from the largest and from the
    smallest float. *)

Module Float.

(** The integer part of the binary logarithm of a positive rational. *)
Definition ilog2 (a : Q) : Z :=
  let k0 := (Z.log2 (Qnum a) - Z.log2 (Z.pos (Qden a)))%Z in
  if Qle_bool (2 ^ k0) a then k0 else (k0 - 1)%Z.

(** The nearest integer, the even one at a tie. *)
Definition round_half_even (x : Q) : Z :=
  let f := Qfloor x in
  match (x - inject_Z f ?= 1 # 2)%Q with
  | Lt => f
  | Gt => (f + 1)%Z
  | Eq => if Z.even f then f else (f + 1)%Z
  end.

(** The float nearest to a positive rational: a multiple of [2 ^ e] where
    [a / 2 ^ e] is between [2 ^ 52] and [2 ^ 53]. *)
Definition nearest (a : Q) : Q :=
  let e := (ilog2 a - 52)%Z in
  (inject_Z (round_half_even (a / 2 ^ e)) * 2 ^ e)%Q.

Definition round (v : Q) : Q :=
  match Qnum v with
  | Z0 => 0%Q
  | Z.pos _ => nearest v
  | Z.neg _ => (- nearest (- v))%Q
  end.

(** Half the distance between two neighbours, relative to their size, is
    below [eps]. *)
Definition eps : Q := 1 # 4503599627370496.

(** [float(z)] of an integer, [a / b] of two integers with [b] not zero,
    [x * y], [x - y] and [x < y]. *)
Definition of_int (z : Z) : Q := round (inject_Z z).

Definition truediv (a b : Z) : Q := round (inject_Z a / inject_Z b).

Definition mul (x y : Q) : Q := round (x * y).

Definition sub (x y : Q) : Q := round (x - y).

Definition lt (x y : Q) : bool :=
  match (x ?= y)%Q with
  | Lt => true
  | _ => false
  end.

End Float.

(** ** [class ThreadBumper(Cog)] ([bot/exts/utils/thread_bumper.py]) *)

Module ThreadBumper.

(** The exceptions that meet in this cog. *)
Inductive exn : Type :=
| IndexError
| AttributeError
| NotFound
| BadArgument
| HTTPException.

Inductive outcome (A : Type) : Type :=
| Done (a : A)
| Raised (e : exn).

Arguments Done {A} a.
Arguments Raised {A} e.

(** A thread and a message, as far as the cog reads them.  Times are in
    microseconds, the resolution of [datetime]; the duration after which a
    thread is archived is in minutes, as the platform gives it. *)
Record Thread : Type := {
  thread_id : N;
  archived : bool;
  archive_timestamp : Z;
  auto_archive_duration : Z
}.

Record Message : Type := {
  created_at : Z
}.

(** What the cog asks for and leaves a trace of. *)
Inductive request : Type :=
| Edit_unarchive (thread : N)          (* thread.edit(archived=False) *)
| Reply_added (thread : N)             (* ctx.send(... added to the bump list) *)
| Reply_removed (thread : N).

(** The answers of the platform. *)
Record Env : Type := {
  get_channel : N -> option Thread;             (* the cache of the bot *)
  fetch_channel : N -> outcome Thread;
  history : Thread -> outcome (list Message);   (* history(limit=1).flatten() *)
  edit : Thread -> outcome unit;
  send : outcome unit
}.

(** The state: the keys of [threads_to_bump], as [items()] lists them, and
    the requests made. *)
Record State : Type := {
  threads_to_bump : list N;
  requests : list request
}.

Definition B (A : Type) : Type := State -> outcome A * State.

Definition ret {A : Type} (a : A) : B A := fun s => (Done a, s).

Definition raise {A : Type} (e : exn) : B A := fun s => (Raised e, s).

Definition bind {A C : Type} (m : B A) (k : A -> B C) : B C :=
  fun s =>
    match m s with
    | (Done a, s') => k a s'
    | (Raised e, s') => (Raised e, s')
    end.

Definition lift {A : Type} (o : outcome A) : B A := fun s => (o, s).

Definition ask (r : request) (answer : outcome unit) : B unit :=
  fun s => (answer, {| threads_to_bump := threads_to_bump s;
                       requests := requests s ++ [r] |}).

(** [threads_to_bump.items()], [.set(id, "sentinel")] and [.delete(id)]. *)
Definition items : B (list N) := fun s => (Done (threads_to_bump s), s).

Definition cache_set (id : N) : B unit :=
  fun s =>
    (Done tt,
     {| threads_to_bump :=
          if existsb (N.eqb id) (threads_to_bump s)
          then threads_to_bump s else threads_to_bump s ++ [id];
        requests := requests s |}).

Definition cache_delete (id : N) : B unit :=
  fun s =>
    (Done tt,
     {| threads_to_bump := List.filter (fun k => negb (N.eqb k id)) (threads_to_bump s);
        requests := requests s |}).

(** [timedelta.total_seconds()]: the microseconds over [10 ** 6], a true
    division of two integers. *)
Definition total_seconds (microseconds : Z) : Q :=
  Float.truediv microseconds 1000000.

(** [difference] of [unarchive_if_not_manually_archived]: the absolute value
    of the seconds between the last message and the archiving, times 60,
    minus the minutes of the automatic archiving.  The product and the
    subtraction are those of floats, and the two integers are turned into
    floats first. *)
Definition difference (thread : Thread) (last_message : Message) : Q :=
  let last_message_til_archive_time :=
    total_seconds (archive_timestamp thread - created_at last_message) in
  Qabs (Float.sub (Float.mul last_message_til_archive_time (Float.of_int 60))
                  (Float.of_int (auto_archive_duration thread))).

(** The test [difference < 1]. *)
Definition within_a_minute (thread : Thread) (last_message : Message) : bool :=
  Float.lt (difference thread last_message) 1%Q.

(** [unarchive_if_not_manually_archived].  The history holds messages only,
    so the test [isinstance(last_message, discord.Message)] passes; with no
    message [messages[0]] raises [IndexError]. *)
Definition unarchive_if_not_manually_archived (env : Env) (thread : Thread)
    : B unit :=
  if negb (archived thread) then ret tt
  else
    bind (lift (history env thread)) (fun messages =>
    bind (match messages with
          | [] => raise IndexError
          | last_message :: _ => ret last_message
          end) (fun last_message =>
    if within_a_minute thread last_message
    then ask (Edit_unarchive (thread_id thread)) (edit env thread)
    else cache_delete (thread_id thread))).

(** The loop of [ensure_bumped_threads_are_active] over the keys read at its
    start. *)
Fixpoint ensure_each (env : Env) (ids : list N) : B unit :=
  match ids with
  | [] => ret tt
  | id :: rest =>
      let cached := get_channel env id in
      let check : B unit :=
        bind (match fetch_channel env id with
              | Done fetched => ret (Some fetched)
              | Raised NotFound =>
                  bind (cache_delete id) (fun _ => ret cached)
              | Raised e => raise e
              end) (fun thread =>
        bind (match thread with
              | None => raise AttributeError       (* None.archived *)
              | Some thread =>
                  if archived thread
                  then unarchive_if_not_manually_archived env thread
                  else ret tt
              end) (fun _ => ensure_each env rest)) in
      match cached with
      | Some thread =>
          if negb (archived thread) then ensure_each env rest   (* continue *)
          else check
      | None => check
      end
  end.

(** [ensure_bumped_threads_are_active] *)
Definition ensure_bumped_threads_are_active (env : Env) : B unit :=
  bind items (ensure_each env).

(** The thread a command is about: the argument unless it is missing or 0,
    else the channel of the command when it is a thread ([in_thread] is then
    its id), else [BadArgument]. *)
Definition thread_of (thread_id : option N) (in_thread : option N) : outcome N :=
  match thread_id with
  | Some (Npos p) => Done (Npos p)
  | _ =>
      match in_thread with
      | Some id => Done id
      | None => Raised BadArgument
      end
  end.

(** The commands and the listener wait for the task started by [__init__]:
    [init_task] is how it ended, and an exception it raised is raised again
    by each [await self.init_task]. *)
Definition add_thread_to_bump_list (env : Env) (init_task : outcome unit)
    (thread_id : option N) (in_thread : option N) : B unit :=
  bind (lift init_task) (fun _ =>
  bind (lift (thread_of thread_id in_thread)) (fun id =>
  bind (cache_set id) (fun _ =>
  ask (Reply_added id) (send env)))).

Definition remove_thread_from_bump_list (env : Env) (init_task : outcome unit)
    (thread_id : option N) (in_thread : option N) : B unit :=
  bind (lift init_task) (fun _ =>
  bind (lift (thread_of thread_id in_thread)) (fun id =>
  bind (cache_delete id) (fun _ =>
  ask (Reply_removed id) (send env)))).

Definition on_thread_update (env : Env) (init_task : outcome unit) (after : Thread)
    : B unit :=
  bind (lift init_task) (fun _ =>
  if negb (archived after) then ret tt
  else
    bind items (fun bumped_threads =>
    if existsb (N.eqb (thread_id after)) bumped_threads
    then unarchive_if_not_manually_archived env after
    else ret tt)).

End ThreadBumper.

(** ** Notions used to state what the code keeps *)

Module Notions.

Import FilterContext Platform.

(** A string of ASCII characters: on these [upper] and [lower] above are
    Python's. *)
Definition is_ascii (s : str) : Prop := Forall (fun c => (c < 128)%N) s.

(** The fields of the context other than the embed of the notification and
    the descriptions of the actions. *)
Definition same_inputs (c c' : FilterContext.t) : Prop :=
  event c' = event c /\ author c' = author c /\ channel c' = channel c
  /\ content c' = content c /\ message c' = message c /\ embeds c' = embeds c
  /\ FilterContext.dm_content c' = FilterContext.dm_content c
  /\ send_alert c' = send_alert c /\ alert_content c' = alert_content c
  /\ alert_embeds c' = alert_embeds c /\ matches c' = matches c.

(** [w'] is [w] after some work: the fields above are the same, descriptions
    and requests were only added at the end. *)
Definition extends (w w' : World) : Prop :=
  same_inputs (ctx w) (ctx w')
  /\ (exists ds, action_descriptions (ctx w') = action_descriptions (ctx w) ++ ds)
  /\ (exists cs, calls w' = calls w ++ cs).

(** The entries of a list have no infraction. *)
Definition all_NONE (l : list InfractionAndNotification.t) : Prop :=
  Forall (fun e => InfractionAndNotification.infraction_type e = NONE) l.

(** A computation that only does such work. *)
Definition growing {A : Type} (m : M A) : Prop :=
  forall w, extends w (snd (m w)).

(** The difference the test of the thread bumper would compare with 1 if
    nothing were rounded: [|60 * gap / 10^6 - minutes|], with the gap in
    microseconds. *)
Definition exact_difference (thread : ThreadBumper.Thread)
    (last_message : ThreadBumper.Message) : Q :=
  Qabs (inject_Z (60 * (ThreadBumper.archive_timestamp thread
                        - ThreadBumper.created_at last_message)
                  - 1000000 * ThreadBumper.auto_archive_duration thread)
        / 1000000).

End Notions.

(** ** Sample data *)

Module Sample.

Import FilterContext Platform InfractionAndNotification.

(** An entry with an infraction, a reason and a duration, no notification
    and no embedded superstar. *)
Definition entry (ty : Infraction) (reason : string) (duration : option Z) : t :=
  {| infraction_type := ty;
     infraction_reason := VStr (lit reason);
     infraction_duration := duration;
     dm_content := VStr [];
     dm_embed := VStr [];
     _superstar := None |}.

(** The same with an embedded superstar. *)
Definition entry_with_superstar (ty : Infraction) (reason : string)
    (duration : option Z) (s : superstar_datum) : t :=
  {| infraction_type := ty;
     infraction_reason := VStr (lit reason);
     infraction_duration := duration;
     dm_content := VStr [];
     dm_embed := VStr [];
     _superstar := Some s |}.

(** An entry with no infraction that only notifies. *)
Definition notification (text : string) : t :=
  {| infraction_type := NONE;
     infraction_reason := VStr [];
     infraction_duration := None;
     dm_content := VStr (lit text);
     dm_embed := VStr [];
     _superstar := None |}.

(** A dictionary representation that stores every attribute of the entry
    under its own name: the infraction as the member it is, and nothing under
    the key ["superstar"]. *)
Definition to_dict_attributes (e : t) : entry_data :=
  {| ed_infraction_type := TMember (infraction_type e);
     ed_infraction_reason := infraction_reason e;
     ed_infraction_duration := infraction_duration e;
     ed_dm_content := InfractionAndNotification.dm_content e;
     ed_dm_embed := InfractionAndNotification.dm_embed e;
     ed_superstar := None |}.

Definition member : User :=
  {| user_id := 7; mention := lit "<@7>"; avatar_url := lit "a.png"; bot := false |}.

Definition general : Channel := {| channel_id := 1; guild := Some 1%N |}.

Definition mods : Channel := {| channel_id := 2; guild := Some 1%N |}.

Definition hello : Message :=
  {| msg_author := member; msg_channel := general; msg_content := lit "hello";
     msg_embeds := []; jump_url := lit "url" |}.

(** A platform on which the member blocks private messages and every other
    request succeeds. *)
Definition dm_blocked : Env :=
  {| author_send := fun _ _ _ => Raise Forbidden;
     channel_send := fun _ _ _ => Ok tt;
     invoke := fun _ _ _ _ _ => Ok tt;
     webhook_send := fun _ _ _ => Ok tt;
     utcnow := fun log => (1700000000000000 + 1000000 * Z.of_nat (List.length log))%Z;
     mod_alerts := mods;
     str_of_num := fun _ => lit "0.0";
     str_of_int := fun _ => lit "0";
     format_user := fun u => mention u;
     format_channel := fun _ => lit "#general";
     escape_markdown := fun s => s;
     repr := fun s => s;
     title := fun s => s;
     soft_orange := 16750899 |}.

Definition fresh : World :=
  {| ctx := Filtering.new_context hello; calls := [] |}.

(** A platform on which every request succeeds. *)
Definition obliging : Env :=
  {| author_send := fun _ _ _ => Ok tt;
     channel_send := fun _ _ _ => Ok tt;
     invoke := fun _ _ _ _ _ => Ok tt;
     webhook_send := fun _ _ _ => Ok tt;
     utcnow := fun log => (1700000000000000 + 1000000 * Z.of_nat (List.length log))%Z;
     mod_alerts := mods;
     str_of_num := fun _ => lit "0.0";
     str_of_int := fun _ => lit "0";
     format_user := fun u => mention u;
     format_channel := fun _ => lit "#general";
     escape_markdown := fun s => s;
     repr := fun s => s;
     title := fun s => s;
     soft_orange := 16750899 |}.

(** A platform on which a private message fails for another reason than a
    refusal of the member. *)
Definition dm_broken : Env :=
  {| author_send := fun _ _ _ => Raise HTTPException;
     channel_send := fun _ _ _ => Ok tt;
     invoke := fun _ _ _ _ _ => Ok tt;
     webhook_send := fun _ _ _ => Ok tt;
     utcnow := fun log => (1700000000000000 + 1000000 * Z.of_nat (List.length log))%Z;
     mod_alerts := mods;
     str_of_num := fun _ => lit "0.0";
     str_of_int := fun _ => lit "0";
     format_user := fun u => mention u;
     format_channel := fun _ => lit "#general";
     escape_markdown := fun s => s;
     repr := fun s => s;
     title := fun s => s;
     soft_orange := 16750899 |}.

(** Two filters, each with its entry, and two filter lists that report one
    of them each; a cog with both lists subscribed to messages. *)
Definition invite_filter : Filtering.Filter t :=
  {| Filtering.filter_id := 1; Filtering.filter_content := lit "discord.gg";
     Filtering.filter_description := VNone;
     Filtering.actions := entry MUTE "invite" (Some 600%Z) |}.

Definition token_filter : Filtering.Filter t :=
  {| Filtering.filter_id := 2; Filtering.filter_content := lit "token";
     Filtering.filter_description := VNone;
     Filtering.actions := notification "be careful" |}.

Definition invite_list : Filtering.FilterList t :=
  {| Filtering.list_key := 2;
     Filtering.list_name := lit "invite";
     Filtering.triggers_for := fun _ => [invite_filter] |}.

Definition token_list : Filtering.FilterList t :=
  {| Filtering.list_key := 3;
     Filtering.list_name := lit "token";
     Filtering.triggers_for := fun _ => [token_filter] |}.

Definition busy_cog : Filtering.Cog t :=
  {| Filtering._subscriptions :=
       fun e => match e with
                | MESSAGE => [invite_list; token_list]
                | MESSAGE_EDIT => []
                end;
     Filtering.webhook := Some 1%N |}.

(** Raw filter lists as the API may return them: two of the name "token",
    and one, or two, of a name that has no class. *)
Definition has_class (name : str) : bool := str_eqb name (lit "token").

Definition raw (name : string) (n : N) : Filtering.RawFilterList :=
  {| Filtering.raw_name := lit name; Filtering.raw_data := n |}.

Definition raws_once : list Filtering.RawFilterList :=
  [raw "token" 1; raw "unicorn" 2; raw "token" 3].

Definition raws_twice : list Filtering.RawFilterList :=
  [raw "token" 1; raw "unicorn" 2; raw "token" 3; raw "unicorn" 4].

(** A thread of the bump list that was archived an hour, its automatic
    duration, after its last message; another one that was deleted. *)
Definition help_thread : ThreadBumper.Thread :=
  {| ThreadBumper.thread_id := 11; ThreadBumper.archived := true;
     ThreadBumper.archive_timestamp := 3600000000;
     ThreadBumper.auto_archive_duration := 60 |}.

Definition open_thread : ThreadBumper.Thread :=
  {| ThreadBumper.thread_id := 10; ThreadBumper.archived := false;
     ThreadBumper.archive_timestamp := 0;
     ThreadBumper.auto_archive_duration := 60 |}.

Definition first_message : ThreadBumper.Message :=
  {| ThreadBumper.created_at := 0 |}.

Definition discord : ThreadBumper.Env :=
  {| ThreadBumper.get_channel :=
       fun id => if N.eqb id 10 then Some open_thread
                 else if N.eqb id 11 then Some help_thread else None;
     ThreadBumper.fetch_channel :=
       fun id => if N.eqb id 10 then ThreadBumper.Done open_thread
                 else if N.eqb id 11 then ThreadBumper.Done help_thread
                 else ThreadBumper.Raised ThreadBumper.NotFound;
     ThreadBumper.history := fun _ => ThreadBumper.Done [first_message];
     ThreadBumper.edit := fun _ => ThreadBumper.Done tt;
     ThreadBumper.send := ThreadBumper.Done tt |}.

Definition bumping : ThreadBumper.State :=
  {| ThreadBumper.threads_to_bump := [10; 12; 11]%N;
     ThreadBumper.requests := [] |}.

(** An entry that notifies, renames and mutes. *)
Definition full_entry : t :=
  {| infraction_type := MUTE;
     infraction_reason := VStr (lit "spam");
     infraction_duration := Some 600%Z;
     dm_content := VStr (lit "be nice");
     dm_embed := VStr [];
     _superstar := Some (VStr (lit "nick"), Some 3600%Z) |}.

(** A message of 4500 characters and the context built from it. *)
Definition flood : Message :=
  {| msg_author := member; msg_channel := general;
     msg_content := List.repeat 120%N 4500;
     msg_embeds := []; jump_url := lit "url" |}.

Definition flooded : World :=
  {| ctx := Filtering.new_context flood; calls := [] |}.

(** A filter list that finds nothing, and a cog with this one list
    subscribed to messages and with an alert webhook. *)
Definition quiet_list : Filtering.FilterList t :=
  {| Filtering.list_key := 1;
     Filtering.list_name := lit "token";
     Filtering.triggers_for := fun _ => [] |}.

Definition cog : Filtering.Cog t :=
  {| Filtering._subscriptions :=
       fun e => match e with MESSAGE => [quiet_list] | MESSAGE_EDIT => [] end;
     Filtering.webhook := Some 1%N |}.

End Sample.

(** * Properties *)

Import FilterContext Platform InfractionAndNotification.

(** ** Strings and the enumeration *)

Lemma str_eqb_eq (a b : str) : str_eqb a b = true <-> a = b.
Proof.
  revert b; induction a as [|x a IH]; intros [|y b]; simpl;
    try (split; [discriminate | discriminate]); try tauto.
  rewrite andb_true_iff, N.eqb_eq, IH.
  split; [intros [-> ->]; reflexivity | intros H; inversion H; auto].
Qed.

Lemma str_eqb_refl (a : str) : str_eqb a a = true.
Proof. apply str_eqb_eq; reflexivity. Qed.

Lemma str_eqb_neq (a b : str) : a <> b -> str_eqb a b = false.
Proof.
  intros H; destruct (str_eqb a b) eqn:E; [|reflexivity].
  apply str_eqb_eq in E; contradiction.
Qed.

Lemma Infraction_eqb_eq (a b : Infraction) : InfractionEnum.eqb a b = true <-> a = b.
Proof. destruct a, b; vm_compute; split; congruence. Qed.

Lemma Infraction_eqb_refl (a : Infraction) : InfractionEnum.eqb a a = true.
Proof. apply Infraction_eqb_eq; reflexivity. Qed.

Lemma Infraction_eqb_neq (a b : Infraction) : a <> b -> InfractionEnum.eqb a b = false.
Proof.
  intros H; destruct (InfractionEnum.eqb a b) eqn:E; [|reflexivity].
  apply Infraction_eqb_eq in E; contradiction.
Qed.

Lemma is_SUPERSTAR_eq (i : Infraction) : is_SUPERSTAR i = true <-> i = SUPERSTAR.
Proof. destruct i; vm_compute; split; congruence. Qed.

(** Every member is found again under its name, as [__or__] relies on when it
    stores the name of the winning infraction. *)
Lemma getitem_name (i : Infraction) :
  InfractionEnum.getitem (upper (replace_space (InfractionEnum.name i))) = Ok i.
Proof. destruct i; reflexivity. Qed.

Lemma name_truthy (i : Infraction) : truthy (VStr (InfractionEnum.name i)) = true.
Proof. destruct i; reflexivity. Qed.

(** ** [_merge_messages] *)

(** The only exception [_merge_messages] raises is [AttributeError]. *)
Lemma merge_messages_raises (m1 m2 : value) (e : exn) :
  _merge_messages m1 m2 = Raise e -> e = AttributeError.
Proof.
  unfold _merge_messages.
  destruct (negb (truthy m1) && negb (truthy m2)); [discriminate|].
  destruct (negb (truthy m1) || value_eqb m1 m2); [discriminate|].
  destruct (negb (truthy m2)); [discriminate|].
  destruct m1 as [|s1|z1], m2 as [|s2|z2]; simpl; congruence.
Qed.

(** On two strings it raises nothing. *)
Lemma merge_messages_str (m1 m2 : str) :
  exists m, _merge_messages (VStr m1) (VStr m2) = Ok (VStr m).
Proof.
  unfold _merge_messages.
  destruct (negb (truthy (VStr m1)) && negb (truthy (VStr m2))); [eauto|].
  destruct (negb (truthy (VStr m1)) || value_eqb (VStr m1) (VStr m2)); [eauto|].
  destruct (negb (truthy (VStr m2))); [eauto|].
  simpl; eauto.
Qed.


(** ** [_merge_durations] *)

(** [_merge_durations]: when either duration is absent the result is absent,
    a permanent infraction; else it is the larger of the two.  So [None] and
    10 seconds give [None], and 5 and 10 seconds give 10. *)
Theorem merge_durations_spec (d1 d2 : option Z) :
  (d1 = None \/ d2 = None -> _merge_durations d1 d2 = None)
  /\ (forall a b, d1 = Some a -> d2 = Some b ->
                  _merge_durations d1 d2 = Some (Z.max a b))
  /\ _merge_durations None (Some 10%Z) = None
  /\ _merge_durations (Some 5%Z) (Some 10%Z) = Some 10%Z.
Proof.
  repeat split.
  - intros [-> | ->]; [reflexivity | destruct d1; reflexivity].
  - intros a b -> ->; reflexivity.
Qed.

Lemma merge_durations_assoc (a b c : option Z) :
  _merge_durations (_merge_durations a b) c = _merge_durations a (_merge_durations b c).
Proof.
  destruct a, b, c; simpl; try reflexivity.
  f_equal; apply eq_sym, Z.max_assoc.
Qed.

(** ** [__or__] *)

(** A step through one [_merge_messages] of [or_plain]: it returns a value,
    or the whole merge raises [AttributeError]. *)
Ltac step_merge a b :=
  let E := fresh "E" in
  let e := fresh "e" in
  destruct (_merge_messages a b) as [?|e] eqn:E;
  [ | apply merge_messages_raises in E; subst e; reflexivity ];
  cbn [Py.bind].

(** The constructor refuses a member of the enumeration under
    ["infraction_type"], unless it is [NONE]. *)
Lemma init_member_raises (i : Infraction) (r c e : value) (d : option Z)
    (s : option superstar_datum) :
  i <> NONE ->
  __init__ {| ed_infraction_type := TMember i; ed_infraction_reason := r;
              ed_infraction_duration := d; ed_dm_content := c;
              ed_dm_embed := e; ed_superstar := s |}
  = Raise AttributeError.
Proof. destruct i; intros H; try reflexivity; congruence. Qed.

(** Two entries of one infraction that is not [NONE] cannot be merged: the
    merge hands the member itself, not its name, to the constructor. *)
Lemma or_same_type_raises (to_dict : t -> entry_data) (A B : t) :
  infraction_type A = infraction_type B ->
  infraction_type A <> NONE ->
  __or__ to_dict A B = Raise AttributeError.
Proof.
  intros Heq Hnone.
  unfold __or__.
  rewrite <- Heq, (Infraction_eqb_neq Hnone), Infraction_eqb_refl.
  cbn [negb andb]; cbv iota.
  unfold or_plain.
  rewrite <- Heq, Infraction_eqb_refl; cbn [negb]; cbv iota.
  step_merge (infraction_reason A) (infraction_reason B).
  step_merge (dm_content A) (dm_content B).
  step_merge (dm_embed A) (dm_embed B).
  destruct (_superstar A) as [[r1 d1]|], (_superstar B) as [[r2 d2]|];
    cbn [Py.bind]; try (apply init_member_raises; assumption).
  step_merge r1 (of_duration d2).
  apply init_member_raises; assumption.
Qed.

(** C2, as amended.  For an entry [N] with no infraction: [N | X] is [X] for
    every [X]; [X | N] is [X] for every [X] that has an infraction; and when
    [X] has none either, [X | N] is [N]. *)
Theorem or_NONE_identity (to_dict : t -> entry_data) (X N : t) :
  infraction_type N = NONE ->
  __or__ to_dict N X = Ok X
  /\ (infraction_type X <> NONE -> __or__ to_dict X N = Ok X)
  /\ (infraction_type X = NONE -> __or__ to_dict X N = Ok N).
Proof.
  intros HN; unfold __or__; rewrite HN; cbn.
  repeat split.
  - intros HX; rewrite (Infraction_eqb_neq HX); reflexivity.
  - intros ->; reflexivity.
Qed.

Lemma or_NONE_identity_witness :
  __or__ Sample.to_dict_attributes (Sample.notification "") (Sample.entry BAN "spam" None)
  = Ok (Sample.entry BAN "spam" None)
  /\ (infraction_type (Sample.entry BAN "spam" None) <> NONE ->
      __or__ Sample.to_dict_attributes (Sample.entry BAN "spam" None) (Sample.notification "")
      = Ok (Sample.entry BAN "spam" None))
  /\ (infraction_type (Sample.entry BAN "spam" None) = NONE ->
      __or__ Sample.to_dict_attributes (Sample.entry BAN "spam" None) (Sample.notification "")
      = Ok (Sample.notification "")).
Proof.
  apply (@or_NONE_identity Sample.to_dict_attributes
           (Sample.entry BAN "spam" None) (Sample.notification "")).
  reflexivity.
Defined.

(** C2, as stated, fails: an entry with no infraction that notifies the
    member, merged with an empty entry on its right, gives the empty entry;
    the notification is gone. *)
Lemma or_NONE_right_not_identity :
  infraction_type (Sample.notification "") = NONE
  /\ __or__ Sample.to_dict_attributes (Sample.notification "be nice") (Sample.notification "")
     = Ok (Sample.notification "")
  /\ __or__ Sample.to_dict_attributes (Sample.notification "be nice") (Sample.notification "")
     <> Ok (Sample.notification "be nice").
Proof. repeat split; discriminate. Qed.

(** C4.  The merge of two [BAN] entries raises [AttributeError], whatever
    their durations: it never yields the [BAN] with the larger duration. *)
Theorem or_BAN_BAN_raises (to_dict : t -> entry_data) (A B : t) :
  infraction_type A = BAN ->
  infraction_type B = BAN ->
  __or__ to_dict A B = Raise AttributeError.
Proof.
  intros HA HB; apply or_same_type_raises; congruence.
Qed.

Lemma or_BAN_BAN_raises_witness :
  __or__ Sample.to_dict_attributes
    (Sample.entry BAN "spam" (Some 5%Z)) (Sample.entry BAN "scam" (Some 10%Z))
  = Raise AttributeError.
Proof.
  apply (@or_BAN_BAN_raises Sample.to_dict_attributes
           (Sample.entry BAN "spam" (Some 5%Z)) (Sample.entry BAN "scam" (Some 10%Z)));
    reflexivity.
Defined.

(** On messages as annotated, [_merge_messages] returns such a message. *)
Lemma merge_messages_text (m1 m2 : value) :
  is_text m1 = true -> is_text m2 = true ->
  exists m, _merge_messages m1 m2 = Ok m /\ is_text m = true.
Proof.
  destruct m1 as [|s1|z1], m2 as [|s2|z2]; try discriminate; intros _ _.
  - cbn; eauto.
  - destruct s2; cbn; eauto.
  - destruct s1; cbn; eauto.
  - destruct (merge_messages_str s1 s2) as [m E]; eauto.
Qed.

(** The constructor accepts the name of a member. *)
Lemma init_name (i : Infraction) (r c e : value) (d : option Z)
    (s : option superstar_datum) :
  __init__ {| ed_infraction_type := TName (InfractionEnum.name i);
              ed_infraction_reason := r; ed_infraction_duration := d;
              ed_dm_content := c; ed_dm_embed := e; ed_superstar := s |}
  = Ok {| infraction_type := i; infraction_reason := r;
          infraction_duration := d; dm_content := c; dm_embed := e;
          _superstar := s |}.
Proof. destruct i; reflexivity. Qed.

(** The severity rule.  Two entries of different infractions, none of them
    [NONE] or [SUPERSTAR], with messages as annotated and at most one
    embedded superstar, merge into an entry with the infraction of lower
    value and its duration, and with the embedded superstar of the side that
    has one. *)
Lemma or_different_types (to_dict : t -> entry_data) (A B : t) :
  infraction_type A <> infraction_type B ->
  infraction_type A <> NONE -> infraction_type B <> NONE ->
  infraction_type A <> SUPERSTAR -> infraction_type B <> SUPERSTAR ->
  annotated A = true -> annotated B = true ->
  _superstar A = None \/ _superstar B = None ->
  let higher :=
    if (InfractionEnum.value (infraction_type A)
        <? InfractionEnum.value (infraction_type B))%Z then A else B in
  exists r,
    __or__ to_dict A B = Ok r
    /\ infraction_type r = infraction_type higher
    /\ infraction_duration r = infraction_duration higher
    /\ _superstar r = match _superstar A with
                      | Some s => Some s
                      | None => _superstar B
                      end.
Proof.
  intros Hne HA HB SA SB TA TB Hs higher.
  unfold annotated in TA, TB.
  apply andb_true_iff in TA, TB; destruct TA as [TA TA3], TB as [TB TB3].
  apply andb_true_iff in TA, TB; destruct TA as [TA1 TA2], TB as [TB1 TB2].
  unfold __or__.
  rewrite (Infraction_eqb_neq HA), (Infraction_eqb_neq HB).
  assert (is_SUPERSTAR (infraction_type A) = false) as ->.
  { destruct (is_SUPERSTAR (infraction_type A)) eqn:E; [|reflexivity].
    apply is_SUPERSTAR_eq in E; contradiction. }
  assert (is_SUPERSTAR (infraction_type B) = false) as ->.
  { destruct (is_SUPERSTAR (infraction_type B)) eqn:E; [|reflexivity].
    apply is_SUPERSTAR_eq in E; contradiction. }
  rewrite andb_false_r.
  unfold or_plain; rewrite (Infraction_eqb_neq Hne); cbn [negb].
  destruct (merge_messages_text _ _ TA1 TB1) as (m1 & -> & _).
  destruct (merge_messages_text _ _ TA2 TB2) as (m2 & -> & _).
  destruct (merge_messages_text _ _ TA3 TB3) as (m3 & -> & _).
  assert (InfractionEnum.value (infraction_type A)
          <> InfractionEnum.value (infraction_type B)) as Hv.
  { intros E; apply Hne; apply Infraction_eqb_eq; unfold InfractionEnum.eqb.
    apply Z.eqb_eq; exact E. }
  subst higher.
  destruct (Z.gtb_spec (InfractionEnum.value (infraction_type A))
                       (InfractionEnum.value (infraction_type B))) as [Hgt|Hle];
    destruct (Z.ltb_spec (InfractionEnum.value (infraction_type A))
                         (InfractionEnum.value (infraction_type B))) as [Hlt|Hge];
    try lia;
    cbn [Py.bind];
    (destruct Hs as [Hs|Hs]; rewrite Hs;
     [ | destruct (_superstar A) as [[? ?]|] ];
     cbn [Py.bind]; rewrite init_name; eexists; repeat split).
Qed.

Lemma or_different_types_witness :
  let A := Sample.entry_with_superstar WARNING "spam" (Some 10%Z)
             (VStr (lit "nick"), Some 60%Z) in
  let B := Sample.entry BAN "scam" (Some 5%Z) in
  let higher :=
    if (InfractionEnum.value (infraction_type A)
        <? InfractionEnum.value (infraction_type B))%Z then A else B in
  exists r,
    __or__ Sample.to_dict_attributes A B = Ok r
    /\ infraction_type r = infraction_type higher
    /\ infraction_duration r = infraction_duration higher
    /\ _superstar r = match _superstar A with
                      | Some s => Some s
                      | None => _superstar B
                      end.
Proof.
  apply (@or_different_types Sample.to_dict_attributes
           (Sample.entry_with_superstar WARNING "spam" (Some 10%Z)
              (VStr (lit "nick"), Some 60%Z))
           (Sample.entry BAN "scam" (Some 5%Z)));
    try discriminate; try reflexivity.
  right; reflexivity.
Defined.

(** C3.  The merge is not associative on entries without any superstar: with
    two [WARNING] entries and a [BAN] entry, merging the two warnings first
    raises [AttributeError], while merging the second warning with the ban
    first gives a [BAN] entry that carries the three reasons. *)
Theorem or_not_associative (to_dict : t -> entry_data) :
  (ab <- __or__ to_dict (Sample.entry WARNING "a" (Some 10%Z))
                        (Sample.entry WARNING "b" (Some 20%Z)) ;;
   __or__ to_dict ab (Sample.entry BAN "c" None))%res
  = Raise AttributeError
  /\ (bc <- __or__ to_dict (Sample.entry WARNING "b" (Some 20%Z))
                           (Sample.entry BAN "c" None) ;;
      __or__ to_dict (Sample.entry WARNING "a" (Some 10%Z)) bc)%res
     = Ok {| infraction_type := BAN;
             infraction_reason :=
               VStr (bullet_space ++ lit "a" ++ blank_line
                       ++ bullet_space ++ lit "b" ++ blank_line
                       ++ bullet_space ++ lit "c");
             infraction_duration := None;
             dm_content := VStr [];
             dm_embed := VStr [];
             _superstar := None |}.
Proof. split; reflexivity. Qed.

(** C5.  A [SUPERSTAR] entry as a rule's configuration gives it (it has no
    embedded superstar) cannot be merged with an entry of another infraction:
    in either order the merge raises, because it reads the embedded superstar
    of the [SUPERSTAR] side, which is [None], in place of that side's reason
    and duration. *)
Theorem or_SUPERSTAR_raises (to_dict : t -> entry_data) (S B : t) :
  infraction_type S = SUPERSTAR ->
  _superstar S = None ->
  infraction_type B <> SUPERSTAR ->
  infraction_type B <> NONE ->
  (exists e, __or__ to_dict S B = Raise e)
  /\ (exists e, __or__ to_dict B S = Raise e).
Proof.
  intros TS SS HB1 HB2.
  assert (is_SUPERSTAR (infraction_type B) = false) as EB.
  { destruct (is_SUPERSTAR (infraction_type B)) eqn:E; [|reflexivity].
    apply is_SUPERSTAR_eq in E; contradiction. }
  assert (InfractionEnum.eqb SUPERSTAR (infraction_type B) = false) as E1
    by (apply Infraction_eqb_neq; congruence).
  assert (InfractionEnum.eqb (infraction_type B) SUPERSTAR = false) as E2
    by (apply Infraction_eqb_neq; congruence).
  unfold __or__, or_superstar.
  rewrite TS, SS, EB, E1, E2, (Infraction_eqb_neq HB2).
  cbn.
  destruct (_superstar B) as [[r d]|]; cbn; split; eexists; reflexivity.
Qed.

Lemma or_SUPERSTAR_raises_witness :
  (exists e, __or__ Sample.to_dict_attributes
               (Sample.entry SUPERSTAR "nick" (Some 3600%Z))
               (Sample.entry BAN "spam" None) = Raise e)
  /\ (exists e, __or__ Sample.to_dict_attributes
                  (Sample.entry BAN "spam" None)
                  (Sample.entry SUPERSTAR "nick" (Some 3600%Z)) = Raise e).
Proof.
  apply (@or_SUPERSTAR_raises Sample.to_dict_attributes
           (Sample.entry SUPERSTAR "nick" (Some 3600%Z))
           (Sample.entry BAN "spam" None));
    [reflexivity | reflexivity | discriminate | discriminate].
Defined.

(** When both sides carry an embedded superstar, the reason of the one on the
    right plays no part in the merge of two entries none of which is a
    [SUPERSTAR]: the merge reads its duration in the place of its reason. *)
Lemma or_plain_ignores_right_reason (A B : t) (r r' : value) (d : option Z) :
  _superstar A <> None ->
  let B1 := {| infraction_type := infraction_type B;
               infraction_reason := infraction_reason B;
               infraction_duration := infraction_duration B;
               dm_content := dm_content B; dm_embed := dm_embed B;
               _superstar := Some (r, d) |} in
  let B2 := {| infraction_type := infraction_type B;
               infraction_reason := infraction_reason B;
               infraction_duration := infraction_duration B;
               dm_content := dm_content B; dm_embed := dm_embed B;
               _superstar := Some (r', d) |} in
  or_plain A B1 = or_plain A B2.
Proof.
  intros HA B1 B2; unfold or_plain; subst B1 B2; cbn.
  destruct (_superstar A) as [[ra da]|]; [ | congruence].
  destruct (InfractionEnum.eqb (infraction_type A) (infraction_type B));
    [reflexivity|]; cbn.
  destruct (InfractionEnum.value (infraction_type A)
            >? InfractionEnum.value (infraction_type B))%Z; reflexivity.
Qed.

(** C6.  A [WARNING] and a [BAN] that both carry an embedded superstar, with
    reasons "a" and "b": the merged entry's embedded superstar has the reason
    "a" alone, not the merge of "a" and "b", which is the two bullet
    points. *)
Theorem or_embedded_superstars_reason (to_dict : t -> entry_data) :
  __or__ to_dict
    (Sample.entry_with_superstar WARNING "w" (Some 10%Z) (VStr (lit "a"), None))
    (Sample.entry_with_superstar BAN "b" None (VStr (lit "b"), None))
  = Ok {| infraction_type := BAN;
          infraction_reason :=
            VStr (bullet_space ++ lit "w" ++ blank_line ++ bullet_space ++ lit "b");
          infraction_duration := None;
          dm_content := VStr [];
          dm_embed := VStr [];
          _superstar := Some (VStr (lit "a"), None) |}
  /\ _merge_messages (VStr (lit "a")) (VStr (lit "b"))
     = Ok (VStr (bullet_space ++ lit "a" ++ blank_line ++ bullet_space ++ lit "b"))
  /\ __or__ to_dict
       (Sample.entry_with_superstar WARNING "w" (Some 10%Z) (VStr (lit "a"), Some 60%Z))
       (Sample.entry_with_superstar BAN "b" None (VStr (lit "b"), Some 30%Z))
     = Raise AttributeError.
Proof. repeat split; reflexivity. Qed.

(** ** [action] *)

(** What the notification step does when the member blocks private messages:
    after the refused private message, it posts in the channel the content
    the context held before the step, which is not the merged content it
    tried to send privately; both carry the same embed. *)
Lemma notify_blocked (env : Env) (self : t) (w : World) (text embed_text : value) :
  _merge_messages (VStr (FilterContext.dm_content (ctx w))) (dm_content self) = Ok text ->
  _merge_messages (description (FilterContext.dm_embed (ctx w))) (dm_embed self)
  = Ok embed_text ->
  truthy text || truthy embed_text = true ->
  (forall u s e, author_send env u s e = Raise Forbidden) ->
  exists e,
    calls (snd (notify env self w))
    = calls w
        ++ [AuthorSend (author (ctx w))
              (lit "Hey " ++ mention (author (ctx w)) ++ lit "!" ++ newline
                   ++ format_value env text) e;
            ChannelSend (channel (ctx w)) (FilterContext.dm_content (ctx w)) e]
    /\ description e = embed_text.
Proof.
  intros H1 H2 H3 HF.
  unfold notify, Platform.bind, get_ctx, lift.
  rewrite H1, H2, H3.
  unfold modify_ctx, try_except, request, Platform.bind, get_ctx.
  cbn [ctx calls FilterContext.dm_embed FilterContext.dm_content set_dm_embed
       author channel].
  destruct (colour (set_description (FilterContext.dm_embed (ctx w)) embed_text))
    eqn:EC;
    cbn [ctx calls FilterContext.dm_embed FilterContext.dm_content set_dm_embed
         author channel];
    rewrite HF; cbn [is_Forbidden ctx calls FilterContext.dm_embed
                     FilterContext.dm_content set_dm_embed author channel];
    match goal with
    | |- context [channel_send ?a ?b ?c ?d] => destruct (channel_send a b c d)
    end;
    cbn [snd ctx calls]; rewrite <- app_assoc; cbn [app];
    eexists; split; reflexivity.
Qed.

(** C8.  The member of the sample blocks private messages and a rule notifies
    with "be nice".  The private message asked for is "Hey <@7>!" followed by
    "be nice" on the next line; what is then posted in the channel is the
    empty content of the context, with the same embed; "notified" is
    recorded. *)
Theorem blocked_dm_posts_other_content :
  let '(r, w) := action Sample.dm_blocked (Sample.notification "be nice") Sample.fresh in
  let e := {| description := VStr []; colour := Some og_blurple; thumbnail := None |} in
  r = Ok tt
  /\ calls w
     = [AuthorSend Sample.member
          (lit "Hey <@7>!" ++ newline ++ lit "be nice") e;
        ChannelSend Sample.general [] e]
  /\ action_descriptions (ctx w) = [lit "notified"].
Proof. repeat split; reflexivity. Qed.

(** C10.  An entry with an infraction and no duration: [action] never
    returns normally, whatever the platform answers; the expiry it computes
    needs a number of seconds. *)
Theorem action_without_duration_raises (env : Env) (self : t) (w : World) :
  infraction_type self <> NONE ->
  infraction_duration self = None ->
  exists e w', action env self w = (Raise e, w').
Proof.
  intros HT HD.
  unfold action, expiry, Platform.bind, read_clock.
  destruct (notify env self w) as [[[]|e0] w0]; [|eauto].
  unfold get_ctx, lift.
  destruct (get_context (message (ctx w0))) as [ch|e1]; [|eauto].
  rewrite (Infraction_eqb_neq HT), HD; cbn [negb timedelta].
  destruct (_superstar self) as [[reason duration]|]; [|unfold ret; eauto].
  destruct (timedelta duration) as [delta|e2]; [|eauto].
  destruct (datetime_add (utcnow env (calls w0)) delta) as [expires|e3]; [|eauto].
  unfold request, modify_ctx.
  destruct (invoke env (lit "superstar") ch (author (ctx w0)) expires reason)
    as [[]|e4]; eauto.
Qed.

Lemma action_without_duration_raises_witness :
  exists e w', action Sample.dm_blocked (Sample.entry BAN "spam" None) Sample.fresh
               = (Raise e, w').
Proof.
  apply (@action_without_duration_raises Sample.dm_blocked
           (Sample.entry BAN "spam" None) Sample.fresh);
    [discriminate | reflexivity].
Defined.

(** On the sample the exception is [TypeError], raised before anything is
    asked of the platform. *)
Lemma action_permanent_ban :
  action Sample.dm_blocked (Sample.entry BAN "spam" None) Sample.fresh
  = (Raise TypeError, Sample.fresh).
Proof. reflexivity. Qed.

(** With a duration the same entry is applied: the ban is requested in the
    moderators' channel, to expire after the duration. *)
Lemma action_timed_ban :
  let '(r, w) := action Sample.dm_blocked (Sample.entry BAN "spam" (Some 60%Z)) Sample.fresh in
  r = Ok tt
  /\ calls w = [Invoke (lit "BAN") Sample.mods Sample.member 1700000060000000
                  (VStr (lit "spam"))]
  /\ action_descriptions (ctx w) = [lit "ban"].
Proof. repeat split; reflexivity. Qed.

(** ** [on_message] *)

Section DispatchProperties.

Import Filtering.

Variable Actions : Type.
Variable actions_or : Actions -> Actions -> res Actions.
Variable actions_action : Env -> Actions -> M unit.

Lemma dict_set_not_nil (d : list (FilterList Actions * list (Filter Actions))) k v : dict_set d k v <> [].
Proof.
  destruct d as [|[k' v'] d]; cbn; [discriminate|].
  destruct (list_key k' =? list_key k)%N; discriminate.
Qed.

Lemma dict_set_all_empty (d : list (FilterList Actions * list (Filter Actions))) k : all_empty d -> all_empty (dict_set d k []).
Proof.
  unfold all_empty; induction 1 as [|[k' v'] d Hk Hd IH]; cbn.
  - repeat constructor.
  - destruct (list_key k' =? list_key k)%N; constructor; auto.
Qed.

Lemma collect_all_empty (c : FilterContext.t) (ls : list (FilterList Actions)) :
  (forall l, In l ls -> triggers_for l c = []) ->
  forall d : list (FilterList Actions * list (Filter Actions)),
    all_empty d ->
    all_empty (fold_left (fun d l => dict_set d l (triggers_for l c)) ls d).
Proof.
  induction ls as [|l ls IH]; intros H d Hd; cbn; [assumption|].
  apply IH.
  - intros l' Hl'; apply H; right; assumption.
  - rewrite (H l (or_introl eq_refl)); apply dict_set_all_empty; assumption.
Qed.

Lemma collect_not_nil (c : FilterContext.t) (ls : list (FilterList Actions)) :
  forall d : list (FilterList Actions * list (Filter Actions)),
    d <> [] \/ ls <> [] ->
    fold_left (fun d l => dict_set d l (triggers_for l c)) ls d <> [].
Proof.
  induction ls as [|l ls IH]; intros d H; cbn.
  - destruct H as [H|H]; [assumption | congruence].
  - apply IH; left; apply dict_set_not_nil.
Qed.

Lemma actions_of_all_empty (d : list (FilterList Actions * list (Filter Actions))) :
  all_empty d ->
  List.flat_map (fun '(_, filters) => List.map (@actions Actions) filters) d = [].
Proof.
  induction 1 as [|[k v] d Hk Hd IH]; cbn; [reflexivity|].
  cbn in Hk; subst v; cbn; assumption.
Qed.

(** A message of a bot is not dispatched. *)
Lemma on_message_bot env (self : Cog Actions) msg log :
  bot (msg_author msg) = true ->
  on_message actions_or actions_action env self msg log = (Ok tt, None, log).
Proof. intros H; unfold on_message; rewrite H; reflexivity. Qed.

(** With no filter list subscribed, the dispatch ends at once and leaves
    everything as it was. *)
Lemma on_message_no_list env (self : Cog Actions) msg log :
  bot (msg_author msg) = false ->
  _subscriptions self MESSAGE = [] ->
  on_message actions_or actions_action env self msg log
  = (Ok tt, Some (new_context msg), log).
Proof. intros H1 H2; unfold on_message; rewrite H1, H2; reflexivity. Qed.

End DispatchProperties.

(** C1.  A message of a member, a filter list subscribed to messages, and no
    filter triggered in any subscribed list: the dispatch does not end
    quietly, it raises [TypeError].  No request is made and the context is
    the one built from the message. *)
Theorem on_message_no_match_raises (Actions : Type)
    (actions_or : Actions -> Actions -> res Actions)
    (actions_action : Env -> Actions -> M unit)
    (env : Env) (self : Filtering.Cog Actions) (msg : Message) (log : list call) :
  bot (msg_author msg) = false ->
  Filtering._subscriptions self MESSAGE <> [] ->
  (forall l, In l (Filtering._subscriptions self MESSAGE) ->
             Filtering.triggers_for l (Filtering.new_context msg) = []) ->
  Filtering.on_message actions_or actions_action env self msg log
  = (Raise TypeError, Some (Filtering.new_context msg), log).
Proof.
  intros Hbot Hsub Hnone.
  unfold Filtering.on_message; rewrite Hbot.
  pose proof (@collect_all_empty Actions (Filtering.new_context msg) _ Hnone []
                (Forall_nil _)) as He.
  pose proof (@collect_not_nil Actions (Filtering.new_context msg)
                (Filtering._subscriptions self MESSAGE) [] (or_intror Hsub)) as Hn.
  apply actions_of_all_empty in He.
  cbv zeta.
  destruct (fold_left _ (Filtering._subscriptions self MESSAGE) []) as [|p d] eqn:E;
    [congruence|].
  unfold Platform.bind, lift; rewrite He; reflexivity.
Qed.

Lemma on_message_no_match_raises_witness :
  Filtering.on_message (__or__ Sample.to_dict_attributes) action
    Sample.dm_blocked Sample.cog Sample.hello []
  = (Raise TypeError, Some (Filtering.new_context Sample.hello), []).
Proof.
  apply (@on_message_no_match_raises t (__or__ Sample.to_dict_attributes) action
           Sample.dm_blocked Sample.cog Sample.hello []).
  - reflexivity.
  - discriminate.
  - intros l [<-|[]]; reflexivity.
Defined.

(** ** [_send_alert] *)

Lemma truncate_short (s : str) :
  List.length s <= 4000 -> Filtering.truncate s = s.
Proof.
  unfold Filtering.truncate; intros H.
  destruct (Nat.ltb_spec 4000 (List.length s)) as [Hlt|Hge]; [|reflexivity].
  exfalso; apply (Nat.lt_irrefl 4000).
  eapply Nat.lt_le_trans; eassumption.
Qed.

Lemma truncate_long (s : str) :
  4000 < List.length s ->
  Filtering.truncate s = firstn 4000 s ++ Spec.marker
  /\ List.length (Filtering.truncate s) = 4006.
Proof.
  unfold Filtering.truncate; intros H.
  destruct (Nat.ltb_spec 4000 (List.length s)) as [Hlt|Hge].
  - split; [reflexivity|].
    rewrite length_app, length_firstn, Nat.min_l; [reflexivity|].
    apply Nat.lt_le_incl; exact H.
  - exfalso; apply (Nat.lt_irrefl 4000).
    eapply Nat.lt_le_trans; eassumption.
Qed.

Lemma truncate_length (s : str) :
  List.length (Filtering.truncate s) <= 4006.
Proof.
  destruct (Nat.le_gt_cases (List.length s) 4000) as [Hle|Hgt].
  - rewrite (truncate_short _ Hle).
    apply Nat.le_trans with (1 := Hle).
    apply Nat.leb_le; reflexivity.
  - destruct (truncate_long _ Hgt) as [_ ->]; apply Nat.le_refl.
Qed.

(** C9.  With a webhook, [_send_alert] asks for one alert.  Its first embed
    carries the composed body: as it is when it has at most 4000 characters;
    else its first 4000 characters followed by the six characters of the
    marker, a space and an ellipsis in square brackets, 4006 characters in
    all.  In both cases it has no more than 4006 characters. *)
Theorem alert_body_truncated (Actions : Type) (env : Env)
    (self : Filtering.Cog Actions)
    (triggered : list (Filtering.FilterList Actions * list (Filtering.Filter Actions)))
    (w : World) (hook : N) (m : Message) :
  Filtering.webhook self = Some hook ->
  message (ctx w) = Some m ->
  let body :=
    join newline
      (List.filter (fun part => truthy (VStr part))
                   (Filtering.alert_parts env (ctx w) m triggered)) in
  exists name embed emitted,
    calls (snd (Filtering._send_alert env self triggered w))
    = calls w ++ [WebhookSend name (alert_content (ctx w))
                    (embed :: alert_embeds (ctx w))]
    /\ description embed = VStr emitted
    /\ List.length emitted <= 4006
    /\ (4000 < List.length body ->
        emitted = firstn 4000 body ++ [32; 91; 46; 46; 46; 93]%N
        /\ List.length emitted = 4006)
    /\ (List.length body <= 4000 -> emitted = body).
Proof.
  intros Hhook Hmsg body.
  unfold Filtering._send_alert; rewrite Hhook.
  unfold Platform.bind, get_ctx, lift; rewrite Hmsg.
  unfold request; cbn [snd calls].
  do 3 eexists; split; [reflexivity|].
  cbn [description]; split; [reflexivity|].
  unfold Filtering.embed_description; fold body.
  split; [apply truncate_length|].
  split; [apply truncate_long | apply truncate_short].
Qed.

Lemma alert_body_truncated_witness :
  let body :=
    join newline
      (List.filter (fun part => truthy (VStr part))
         (Filtering.alert_parts Sample.dm_blocked (ctx Sample.flooded) Sample.flood
            (@nil (Filtering.FilterList t * list (Filtering.Filter t))))) in
  exists name embed emitted,
    calls (snd (Filtering._send_alert Sample.dm_blocked Sample.cog [] Sample.flooded))
    = calls Sample.flooded
        ++ [WebhookSend name (alert_content (ctx Sample.flooded))
              (embed :: alert_embeds (ctx Sample.flooded))]
    /\ description embed = VStr emitted
    /\ List.length emitted <= 4006
    /\ (4000 < List.length body ->
        emitted = firstn 4000 body ++ [32; 91; 46; 46; 46; 93]%N
        /\ List.length emitted = 4006)
    /\ (List.length body <= 4000 -> emitted = body).
Proof.
  apply (@alert_body_truncated t Sample.dm_blocked Sample.cog [] Sample.flooded
           1%N Sample.flood); reflexivity.
Defined.

(** On the sample the body is longer than 4000 characters, and the emitted
    one has 4006 and ends with the marker. *)
Lemma alert_flood_length :
  let emitted :=
    Filtering.embed_description
      (Filtering.alert_parts Sample.dm_blocked (ctx Sample.flooded) Sample.flood
         (@nil (Filtering.FilterList t * list (Filtering.Filter t)))) in
  4000
  < List.length
      (join newline
         (List.filter (fun part => truthy (VStr part))
            (Filtering.alert_parts Sample.dm_blocked (ctx Sample.flooded) Sample.flood
               (@nil (Filtering.FilterList t * list (Filtering.Filter t))))))
  /\ List.length emitted = 4006
  /\ skipn 4000 emitted = lit " [...]".
Proof.
  split; [apply Nat.ltb_lt|split]; vm_compute; reflexivity.
Qed.

(** * Further properties of the code *)

Import Notions.

(** ** The rounding of floats *)

Lemma two_power_pos (k : Z) : (0 < 2 ^ k)%Q.
Proof. apply Qpower_0_lt; reflexivity. Qed.

Lemma ilog2_le (a : Q) : (0 < a)%Q -> (2 ^ Float.ilog2 a <= a)%Q.
Proof.
  intros Ha; unfold Float.ilog2.
  destruct (Qle_bool (2 ^ (Z.log2 (Qnum a) - Z.log2 (Z.pos (Qden a)))) a) eqn:E.
  - apply Qle_bool_iff; exact E.
  - clear E.
    destruct a as [n d]; cbn [Qnum Qden].
    assert (0 < n)%Z as Hn.
    { unfold Qlt in Ha; cbn in Ha; lia. }
    pose proof (Z.log2_spec n Hn) as [Ln _].
    pose proof (Z.log2_spec (Z.pos d) (Pos2Z.is_pos d)) as [_ Ld].
    pose proof (Z.log2_nonneg n) as N1.
    pose proof (Z.log2_nonneg (Z.pos d)) as N2.
    set (ln := Z.log2 n) in *; set (ld := Z.log2 (Z.pos d)) in *.
    replace (ln - ld - 1)%Z with (ln - Z.succ ld)%Z by lia.
    rewrite Qpower_minus by discriminate.
    change 2%Q with (inject_Z 2).
    rewrite <- !Zpower_Qpower by lia.
    assert (0 < 2 ^ Z.succ ld)%Z as Hp by (apply Z.pow_pos_nonneg; lia).
    apply Qle_shift_div_r.
    + change 0%Q with (inject_Z 0); rewrite <- Zlt_Qlt; exact Hp.
    + unfold Qle, Qmult, inject_Z; cbn [Qnum Qden].
      rewrite !Z.mul_1_r, Pos.mul_1_r. nia.
Qed.

Lemma round_half_even_bounds (x : Q) :
  (x - 1 <= inject_Z (Float.round_half_even x) <= x + 1)%Q.
Proof.
  unfold Float.round_half_even.
  pose proof (Qfloor_le x) as L; pose proof (Qlt_floor x) as U.
  rewrite inject_Z_plus in U; change (inject_Z 1) with 1%Q in U.
  destruct (x - inject_Z (Qfloor x) ?= 1 # 2)%Q; [destruct (Z.even _)| |];
    rewrite ?inject_Z_plus; change (inject_Z 1) with 1%Q; split; lra.
Qed.

Lemma nearest_error (a : Q) :
  (0 < a)%Q -> (a - a * Float.eps <= Float.nearest a <= a + a * Float.eps)%Q.
Proof.
  intros Ha; unfold Float.nearest.
  set (e := (Float.ilog2 a - 52)%Z).
  pose proof (two_power_pos e) as HP.
  assert (2 ^ e <= a * Float.eps)%Q as HE.
  { unfold e; replace (Float.ilog2 a - 52)%Z with (Float.ilog2 a + (-52))%Z by lia.
    rewrite Qpower_plus by discriminate.
    change (2 ^ (-52))%Q with Float.eps.
    apply Qmult_le_compat_r; [apply ilog2_le; exact Ha | discriminate]. }
  pose proof (round_half_even_bounds (a / 2 ^ e)) as [L U].
  assert (a / 2 ^ e * 2 ^ e == a)%Q as HX by (field; lra).
  set (m := inject_Z (Float.round_half_even (a / 2 ^ e))) in *.
  set (x := (a / 2 ^ e)%Q) in *.
  set (P := (2 ^ e)%Q) in *.
  split; nra.
Qed.

(** The error of a rounding, relative to what is rounded, is at most
    [eps]. *)
Lemma round_error (v : Q) : (Qabs (Float.round v - v) <= Qabs v * Float.eps)%Q.
Proof.
  unfold Float.round; destruct v as [[|n|n] d]; cbn [Qnum].
  - apply Qle_bool_iff; reflexivity.
  - assert (0 < Z.pos n # d)%Q as H by reflexivity.
    pose proof (nearest_error H) as [L U].
    rewrite (Qabs_pos (Z.pos n # d)) by (apply Qlt_le_weak; exact H).
    apply Qabs_Qle_condition; split; lra.
  - assert (0 < - (Z.neg n # d))%Q as H by reflexivity.
    pose proof (nearest_error H) as [L U].
    rewrite (Qabs_neg (Z.neg n # d)) by discriminate.
    apply Qabs_Qle_condition; split; lra.
Qed.

Lemma round_half_even_Z (x : Q) (n : Z) :
  (x == inject_Z n)%Q -> Float.round_half_even x = n.
Proof.
  intros E; unfold Float.round_half_even.
  rewrite (Qfloor_comp _ _ E), Qfloor_Z.
  assert ((x - inject_Z n ?= 1 # 2)%Q = Lt) as ->; [|reflexivity].
  apply Qlt_alt; rewrite E.
  setoid_replace (inject_Z n - inject_Z n)%Q with 0%Q by ring.
  reflexivity.
Qed.

Lemma nearest_Z (p : positive) :
  (Z.pos p < 2 ^ 53)%Z ->
  (Float.nearest (inject_Z (Z.pos p)) == inject_Z (Z.pos p))%Q.
Proof.
  intros H; unfold Float.nearest.
  assert (Float.ilog2 (inject_Z (Z.pos p)) = Z.log2 (Z.pos p)) as ->.
  { unfold Float.ilog2; cbv zeta; cbn [Qnum Qden inject_Z].
    change (Z.log2 1) with 0%Z; rewrite Z.sub_0_r.
    assert (Qle_bool (2 ^ Z.log2 (Z.pos p)) (inject_Z (Z.pos p)) = true) as ->;
      [|reflexivity].
    apply Qle_bool_iff; change 2%Q with (inject_Z 2).
    rewrite <- Zpower_Qpower by apply Z.log2_nonneg.
    rewrite <- Zle_Qle.
    apply Z.log2_spec; lia. }
  assert (Z.log2 (Z.pos p) < 53)%Z as Hk by (apply Z.log2_lt_pow2; lia).
  pose proof (Z.log2_nonneg (Z.pos p)) as Hk0.
  set (n := (52 - Z.log2 (Z.pos p))%Z).
  replace (Z.log2 (Z.pos p) - 52)%Z with (- n)%Z by (unfold n; lia).
  assert (0 <= n)%Z as Hn by (unfold n; lia).
  set (P := (2 ^ (- n))%Q).
  assert (P == / inject_Z (2 ^ n))%Q as HPq.
  { unfold P; rewrite Qpower_opp; change 2%Q with (inject_Z 2).
    rewrite <- Zpower_Qpower by exact Hn; reflexivity. }
  assert (0 < 2 ^ n)%Z as HP by (apply Z.pow_pos_nonneg; lia).
  assert (~ inject_Z (2 ^ n) == 0)%Q as HP0.
  { change 0%Q with (inject_Z 0); rewrite inject_Z_injective; lia. }
  rewrite (@round_half_even_Z _ (Z.pos p * 2 ^ n)).
  - rewrite HPq, inject_Z_mult; field; exact HP0.
  - rewrite HPq, inject_Z_mult; field; exact HP0.
Qed.

(** The float of an integer of magnitude at most [2 ^ 53] is that
    integer. *)
Lemma of_int_exact (z : Z) :
  (Z.abs z <= 2 ^ 53)%Z -> (Float.of_int z == inject_Z z)%Q.
Proof.
  intros H; unfold Float.of_int, Float.round.
  destruct (Z.eq_dec (Z.abs z) (2 ^ 53)) as [E|E].
  - destruct z as [|p|p]; [discriminate| |];
      injection E as ->; reflexivity.
  - destruct z as [|p|p]; cbn [Qnum inject_Z].
    + reflexivity.
    + apply nearest_Z; cbn [Z.abs] in *; lia.
    + assert (Z.pos p < 2 ^ 53)%Z as Hp by (cbn [Z.abs] in *; lia).
      transitivity (- inject_Z (Z.pos p))%Q; [|reflexivity].
      apply Qopp_comp; exact (nearest_Z Hp).
Qed.

(** The next integer is rounded, and so is a quotient. *)
Lemma of_int_samples :
  (Float.of_int 60 == 60)%Q
  /\ (Float.of_int 9007199254740992 == 9007199254740992)%Q
  /\ (Float.of_int 9007199254740993 == 9007199254740992)%Q
  /\ (Float.truediv 2050000 1000000 == 2308094809027379 # 1125899906842624)%Q.
Proof. repeat split. Qed.

(** ** [__init__] and the names of the infractions *)

Lemma getitem_of_name (i : Infraction) :
  InfractionEnum.getitem (InfractionEnum.name i) = Ok i.
Proof. destruct i; reflexivity. Qed.

Lemma getitem_unknown (s : str) :
  (forall i, s <> InfractionEnum.name i) ->
  InfractionEnum.getitem s = Raise KeyError.
Proof.
  intros H; unfold InfractionEnum.getitem, InfractionEnum.members; cbn [List.find].
  repeat (rewrite str_eqb_neq; [| apply not_eq_sym, H]).
  reflexivity.
Qed.

(** The constructor on a name of ASCII characters and a duration that is
    absent or a whole number of seconds of magnitude at most 2^53.  The
    float of such a duration, which is what the constructor stores, is the
    duration.  An empty name gives [NONE].  A name that, with its
    spaces replaced by underscores and in upper case, is the name of a member
    gives that member, and the other fields are taken as they are.  Any other
    name raises [KeyError]. *)
Theorem init_by_name (s : str) (r c e : value) (d : option Z)
    (ss : option superstar_datum) :
  is_ascii s ->
  (forall z, d = Some z -> (Z.abs z <= 2 ^ 53)%Z) ->
  let data :=
    {| ed_infraction_type := TName s; ed_infraction_reason := r;
       ed_infraction_duration := d; ed_dm_content := c; ed_dm_embed := e;
       ed_superstar := ss |} in
  let built i :=
    Ok {| infraction_type := i; infraction_reason := r;
          infraction_duration := d; dm_content := c; dm_embed := e;
          _superstar := ss |} in
  (forall z, d = Some z -> (Float.of_int z == inject_Z z)%Q)
  /\ (s = [] -> __init__ data = built NONE)
  /\ (forall i, s <> [] -> upper (replace_space s) = InfractionEnum.name i ->
                __init__ data = built i)
  /\ (s <> [] -> (forall i, upper (replace_space s) <> InfractionEnum.name i) ->
      __init__ data = Raise KeyError).
Proof.
  intros _ Hd data built; subst data built; unfold __init__; cbn.
  split; [intros z E; apply of_int_exact, (Hd z E)|].
  repeat split.
  - intros ->; reflexivity.
  - intros i Hs Hi; destruct s as [|x s]; [congruence|].
    cbn [truthy]; cbv iota; rewrite Hi, getitem_of_name; reflexivity.
  - intros Hs Hi; destruct s as [|x s]; [congruence|].
    cbn [truthy]; cbv iota; rewrite (getitem_unknown Hi); reflexivity.
Qed.

Lemma init_by_name_witness :
  let s := lit "voice ban" in
  let r := VStr (lit "raid") in
  let data :=
    {| ed_infraction_type := TName s; ed_infraction_reason := r;
       ed_infraction_duration := Some 60%Z; ed_dm_content := VNone;
       ed_dm_embed := VNone; ed_superstar := None |} in
  let built i :=
    Ok {| infraction_type := i; infraction_reason := r;
          infraction_duration := Some 60%Z; dm_content := VNone;
          dm_embed := VNone; _superstar := None |} in
  (forall z, Some 60%Z = Some z -> (Float.of_int z == inject_Z z)%Q)
  /\ (s = [] -> __init__ data = built NONE)
  /\ (forall i, s <> [] -> upper (replace_space s) = InfractionEnum.name i ->
                __init__ data = built i)
  /\ (s <> [] -> (forall i, upper (replace_space s) <> InfractionEnum.name i) ->
      __init__ data = Raise KeyError).
Proof.
  apply (@init_by_name (lit "voice ban") (VStr (lit "raid")) VNone VNone
           (Some 60%Z) None).
  - repeat constructor.
  - intros z E; injection E as <-; cbn; lia.
Defined.

(** The spelling of the sample is read as [VOICE_BAN]. *)
Lemma init_voice_ban :
  upper (replace_space (lit "voice ban")) = InfractionEnum.name VOICE_BAN.
Proof. reflexivity. Qed.

(** ** The two merges of fields *)

(** Two different messages that are not empty become two bullet points. *)
Lemma merge_messages_distinct (m1 m2 : str) :
  m1 <> [] -> m2 <> [] -> m1 <> m2 ->
  _merge_messages (VStr m1) (VStr m2) = Ok (VStr (Spec.two_bullet_points m1 m2)).
Proof.
  intros H1 H2 H12.
  destruct m1 as [|c1 m1]; [congruence|].
  destruct m2 as [|c2 m2]; [congruence|].
  unfold _merge_messages; cbn [truthy negb andb].
  unfold value_eqb; rewrite (str_eqb_neq H12); cbn [orb]; cbv iota.
  unfold bulleted, Spec.two_bullet_points, Spec.with_bullet, bullet; cbn.
  destruct (c1 =? 8226)%N, (c2 =? 8226)%N; reflexivity.
Qed.

Lemma with_bullet_starts (m rest : str) :
  startswith (Spec.with_bullet m ++ rest) bullet = true.
Proof.
  unfold Spec.with_bullet, bullet.
  destruct m as [|c m]; [reflexivity|]; cbn.
  destruct (c =? 8226)%N eqn:E; cbn; [rewrite E|]; reflexivity.
Qed.

Lemma two_bullet_points_bulleted (m1 m2 : str) :
  Spec.with_bullet (Spec.two_bullet_points m1 m2) = Spec.two_bullet_points m1 m2.
Proof.
  unfold Spec.two_bullet_points at 1; unfold Spec.with_bullet at 1.
  fold (Spec.two_bullet_points m1 m2).
  unfold Spec.two_bullet_points at 1; rewrite with_bullet_starts; reflexivity.
Qed.

Lemma two_bullet_points_not_nil (m1 m2 : str) : Spec.two_bullet_points m1 m2 <> [].
Proof.
  unfold Spec.two_bullet_points, Spec.with_bullet, bullet_space.
  destruct (startswith m1 bullet), m1; cbn; discriminate.
Qed.

(** [_merge_messages] on three messages that are not empty, where no two
    messages that meet in a merge are equal: both groupings give the three
    bullet points, in order, separated by blank lines. *)
Theorem merge_messages_assoc (m1 m2 m3 : str) :
  m1 <> [] -> m2 <> [] -> m3 <> [] ->
  m1 <> m2 -> m2 <> m3 ->
  Spec.two_bullet_points m1 m2 <> m3 ->
  m1 <> Spec.two_bullet_points m2 m3 ->
  let all :=
    Ok (VStr (Spec.with_bullet m1 ++ blank_line ++ Spec.with_bullet m2
                ++ blank_line ++ Spec.with_bullet m3)) in
  (m12 <- _merge_messages (VStr m1) (VStr m2) ;; _merge_messages m12 (VStr m3))%res
  = all
  /\ (m23 <- _merge_messages (VStr m2) (VStr m3) ;; _merge_messages (VStr m1) m23)%res
     = all.
Proof.
  intros H1 H2 H3 H12 H23 H123 H1_23 all; subst all.
  rewrite (merge_messages_distinct H1 H2 H12), (merge_messages_distinct H2 H3 H23).
  cbn [Py.bind].
  rewrite (merge_messages_distinct (@two_bullet_points_not_nil m1 m2) H3 H123).
  rewrite (merge_messages_distinct H1 (@two_bullet_points_not_nil m2 m3) H1_23).
  split.
  - unfold Spec.two_bullet_points at 1; rewrite two_bullet_points_bulleted.
    unfold Spec.two_bullet_points; rewrite <- !app_assoc; reflexivity.
  - unfold Spec.two_bullet_points at 1; rewrite two_bullet_points_bulleted.
    unfold Spec.two_bullet_points; reflexivity.
Qed.

Lemma merge_messages_assoc_witness :
  let all :=
    Ok (VStr (Spec.with_bullet (lit "spam") ++ blank_line
                ++ Spec.with_bullet (lit "scam") ++ blank_line
                ++ Spec.with_bullet (lit "raid"))) in
  (m12 <- _merge_messages (VStr (lit "spam")) (VStr (lit "scam")) ;;
   _merge_messages m12 (VStr (lit "raid")))%res = all
  /\ (m23 <- _merge_messages (VStr (lit "scam")) (VStr (lit "raid")) ;;
      _merge_messages (VStr (lit "spam")) m23)%res = all.
Proof.
  apply (@merge_messages_assoc (lit "spam") (lit "scam") (lit "raid"));
    discriminate.
Defined.

(** Without the conditions the grouping matters: a message merged with itself
    stays one bullet-less message, so "a", "a", "b" give two bullet points
    one way and three the other. *)
Lemma merge_messages_grouping :
  (m12 <- _merge_messages (VStr (lit "a")) (VStr (lit "a")) ;;
   _merge_messages m12 (VStr (lit "b")))%res
  = Ok (VStr (bullet_space ++ lit "a" ++ blank_line ++ bullet_space ++ lit "b"))
  /\ (m23 <- _merge_messages (VStr (lit "a")) (VStr (lit "b")) ;;
      _merge_messages (VStr (lit "a")) m23)%res
     = Ok (VStr (bullet_space ++ lit "a" ++ blank_line ++ bullet_space ++ lit "a"
                   ++ blank_line ++ bullet_space ++ lit "b")).
Proof. split; reflexivity. Qed.

(** [_merge_durations] is commutative, associative and idempotent, and the
    absent duration absorbs every other. *)
Theorem merge_durations_algebra (a b c : option Z) :
  _merge_durations a b = _merge_durations b a
  /\ _merge_durations (_merge_durations a b) c
     = _merge_durations a (_merge_durations b c)
  /\ _merge_durations a a = a
  /\ _merge_durations None a = None
  /\ _merge_durations a None = None.
Proof.
  repeat split.
  - destruct a, b; cbn; try reflexivity; f_equal; apply Z.max_comm.
  - apply merge_durations_assoc.
  - destruct a; cbn; [f_equal; apply Z.max_id | reflexivity].
  - destruct a; reflexivity.
Qed.

(** ** [__or__] over several entries *)

(** Two entries of the same infraction, whichever it is, cannot be merged;
    in particular an entry cannot be merged with itself. *)
Theorem or_equal_infractions_raise (to_dict : t -> entry_data) (A B : t) :
  infraction_type A <> NONE ->
  infraction_type B = infraction_type A ->
  __or__ to_dict A B = Raise AttributeError
  /\ __or__ to_dict B A = Raise AttributeError
  /\ __or__ to_dict A A = Raise AttributeError.
Proof.
  intros HA HB.
  repeat split; apply or_same_type_raises; congruence.
Qed.

Lemma or_equal_infractions_raise_witness :
  __or__ Sample.to_dict_attributes
    (Sample.entry SUPERSTAR "nick" (Some 3600%Z)) (Sample.entry SUPERSTAR "name" None)
  = Raise AttributeError
  /\ __or__ Sample.to_dict_attributes
       (Sample.entry SUPERSTAR "name" None) (Sample.entry SUPERSTAR "nick" (Some 3600%Z))
     = Raise AttributeError
  /\ __or__ Sample.to_dict_attributes
       (Sample.entry SUPERSTAR "nick" (Some 3600%Z))
       (Sample.entry SUPERSTAR "nick" (Some 3600%Z))
     = Raise AttributeError.
Proof.
  apply (@or_equal_infractions_raise Sample.to_dict_attributes
           (Sample.entry SUPERSTAR "nick" (Some 3600%Z))
           (Sample.entry SUPERSTAR "name" None));
    [discriminate | reflexivity].
Defined.

Lemma last_cons_default {A : Type} (l : list A) (a d d' : A) :
  List.last (a :: l) d = List.last (a :: l) d'.
Proof.
  revert a; induction l as [|b l IH]; intros a; [reflexivity|].
  change (List.last (b :: l) d = List.last (b :: l) d'); apply IH.
Qed.

Lemma or_fold_NONE (to_dict : t -> entry_data) (l : list t) :
  all_NONE l ->
  forall x, infraction_type x = NONE ->
    fold_left (fun acc y => (a <- acc ;; __or__ to_dict a y)%res) l (Ok x)
    = Ok (List.last l x).
Proof.
  induction 1 as [|y l Hy Hl IH]; intros x Hx; [reflexivity|].
  cbn [fold_left Py.bind].
  unfold __or__ at 2; rewrite Hx; cbn.
  rewrite (IH y Hy).
  destruct l as [|z l]; [reflexivity|].
  f_equal; change (List.last (y :: z :: l) x) with (List.last (z :: l) x).
  apply last_cons_default.
Qed.

Lemma or_fold_after_infraction (to_dict : t -> entry_data) (l : list t) :
  all_NONE l ->
  forall x, infraction_type x <> NONE ->
    fold_left (fun acc y => (a <- acc ;; __or__ to_dict a y)%res) l (Ok x) = Ok x.
Proof.
  induction 1 as [|y l Hy Hl IH]; intros x Hx; [reflexivity|].
  cbn [fold_left Py.bind].
  unfold __or__ at 2; rewrite (Infraction_eqb_neq Hx), Hy; cbn.
  apply IH; assumption.
Qed.

(** [reduce] with [__or__] over entries that have no infraction returns the
    last one: what the entries before it notify is not kept. *)
Theorem reduce_NONE_keeps_last (to_dict : t -> entry_data) (x : t) (l : list t) :
  all_NONE (x :: l) ->
  Filtering.reduce_or (__or__ to_dict) (x :: l) = Ok (List.last l x).
Proof.
  intros H; inversion H as [|? ? Hx Hl]; subst.
  unfold Filtering.reduce_or; apply or_fold_NONE; assumption.
Qed.

Lemma reduce_NONE_keeps_last_witness :
  Filtering.reduce_or (__or__ Sample.to_dict_attributes)
    [Sample.notification "be nice"; Sample.notification "no ads";
     Sample.notification "no caps"]
  = Ok (List.last [Sample.notification "no ads"; Sample.notification "no caps"]
          (Sample.notification "be nice")).
Proof.
  apply (@reduce_NONE_keeps_last Sample.to_dict_attributes
           (Sample.notification "be nice")
           [Sample.notification "no ads"; Sample.notification "no caps"]).
  repeat constructor.
Defined.

(** [reduce] with [__or__] over entries of which exactly one has an
    infraction returns that entry as it is, wherever it stands: the
    notifications of the others are not merged into it. *)
Theorem reduce_single_infraction (to_dict : t -> entry_data)
    (before after : list t) (E : t) :
  all_NONE before -> all_NONE after ->
  infraction_type E <> NONE ->
  Filtering.reduce_or (__or__ to_dict) (before ++ E :: after) = Ok E.
Proof.
  intros Hb Ha HE.
  unfold Filtering.reduce_or.
  destruct before as [|x before]; cbn [app].
  - apply or_fold_after_infraction; assumption.
  - inversion Hb as [|? ? Hx Hb']; subst.
    clear Hb; revert x Hx.
    induction Hb' as [|y before Hy Hb' IH]; intros x Hx; cbn [app fold_left Py.bind].
    + unfold __or__ at 2; rewrite Hx; cbn.
      apply or_fold_after_infraction; assumption.
    + unfold __or__ at 2; rewrite Hx; cbn.
      apply IH; assumption.
Qed.

Lemma reduce_single_infraction_witness :
  Filtering.reduce_or (__or__ Sample.to_dict_attributes)
    ([Sample.notification "be nice"] ++ Sample.entry MUTE "spam" (Some 600%Z)
       :: [Sample.notification "no ads"])
  = Ok (Sample.entry MUTE "spam" (Some 600%Z)).
Proof.
  apply (@reduce_single_infraction Sample.to_dict_attributes
           [Sample.notification "be nice"] [Sample.notification "no ads"]
           (Sample.entry MUTE "spam" (Some 600%Z)));
    [repeat constructor | repeat constructor | discriminate].
Defined.

(** ** What [action] keeps and in what order it works *)

Lemma same_inputs_refl (c : FilterContext.t) : same_inputs c c.
Proof. unfold same_inputs; intuition. Qed.

Lemma same_inputs_trans (a b c : FilterContext.t) :
  same_inputs a b -> same_inputs b c -> same_inputs a c.
Proof. unfold same_inputs; intuition congruence. Qed.

Lemma extends_refl (w : World) : extends w w.
Proof.
  split; [apply same_inputs_refl|].
  split; exists []; rewrite app_nil_r; reflexivity.
Qed.

Lemma extends_trans (a b c : World) : extends a b -> extends b c -> extends a c.
Proof.
  intros (I1 & [d1 D1] & [c1 C1]) (I2 & [d2 D2] & [c2 C2]).
  split; [eapply same_inputs_trans; eassumption|].
  split.
  - exists (d1 ++ d2); rewrite D2, D1, app_assoc; reflexivity.
  - exists (c1 ++ c2); rewrite C2, C1, app_assoc; reflexivity.
Qed.

Lemma growing_ret {A : Type} (a : A) : growing (ret a).
Proof. intros w; apply extends_refl. Qed.

Lemma growing_lift {A : Type} (r : res A) : growing (lift r).
Proof. intros w; apply extends_refl. Qed.

Lemma growing_get_ctx : growing get_ctx.
Proof. intros w; apply extends_refl. Qed.

Lemma growing_request (c : call) (answer : res unit) : growing (request c answer).
Proof.
  intros w; split; [apply same_inputs_refl|].
  split; cbn; [exists []; rewrite app_nil_r | exists [c]]; reflexivity.
Qed.

Lemma growing_set_dm_embed (f : FilterContext.t -> Embed) :
  growing (modify_ctx (fun c => set_dm_embed c (f c))).
Proof.
  intros w; split; [unfold same_inputs; cbn; intuition|].
  split; exists []; cbn; rewrite app_nil_r; reflexivity.
Qed.

Lemma growing_append_description (d : str) :
  growing (modify_ctx (fun c => append_description c d)).
Proof.
  intros w; split; [unfold same_inputs; cbn; intuition|].
  split; cbn; [exists [d] | exists []; rewrite app_nil_r]; reflexivity.
Qed.

Lemma growing_bind {A B : Type} (m : M A) (k : A -> M B) :
  growing m -> (forall a, growing (k a)) -> growing (Platform.bind m k).
Proof.
  intros Hm Hk w; unfold Platform.bind.
  specialize (Hm w); destruct (m w) as [[a|e] w1]; cbn [snd] in Hm |- *.
  - eapply extends_trans; [exact Hm | apply Hk].
  - exact Hm.
Qed.

Lemma growing_try_except (body handler : M unit) (p : exn -> bool) :
  growing body -> growing handler -> growing (try_except body p handler).
Proof.
  intros Hb Hh w; unfold try_except.
  specialize (Hb w); destruct (body w) as [[a|e] w1]; cbn [snd] in Hb |- *.
  - exact Hb.
  - destruct (p e); [eapply extends_trans; [exact Hb | apply Hh] | exact Hb].
Qed.

Ltac growing_step :=
  first
    [ apply growing_ret | apply growing_lift | apply growing_get_ctx
    | apply growing_request | apply growing_append_description
    | apply growing_set_dm_embed
    | apply growing_try_except
    | apply growing_bind; [ | intros ? ] ].

Lemma growing_notify (env : Env) (self : t) : growing (notify env self).
Proof.
  unfold notify.
  apply growing_bind; [apply growing_get_ctx | intros c].
  apply growing_bind; [apply growing_lift | intros text].
  apply growing_bind; [apply growing_lift | intros embed_text].
  destruct (truthy text || truthy embed_text); [|apply growing_ret].
  cbv zeta.
  apply growing_bind; [apply growing_set_dm_embed | intros _].
  apply growing_bind.
  - intros w; split; [|split; exists []; cbn; rewrite app_nil_r].
    + cbn; destruct (colour (FilterContext.dm_embed (ctx w)));
        [apply same_inputs_refl | unfold same_inputs; cbn; intuition].
    + cbn; destruct (colour (FilterContext.dm_embed (ctx w))); reflexivity.
    + reflexivity.
  - intros _; repeat growing_step.
Qed.

(** [action] leaves every field of the context as it was, except the embed of
    the notification and the descriptions of the actions; it only adds
    descriptions, and only adds requests, at the end.  In particular it does
    not write the content of the notification back to the context and does
    not switch the alert off.  This holds however the platform answers and
    also when [action] raises. *)
Theorem action_keeps_context (env : Env) (self : t) (w : World) :
  extends w (snd (action env self w)).
Proof.
  revert w; change (growing (action env self)); unfold action.
  apply growing_bind; [apply growing_notify | intros _].
  apply growing_bind; [apply growing_get_ctx | intros c].
  apply growing_bind; [apply growing_lift | intros ch].
  apply growing_bind.
  - destruct (_superstar self) as [[reason duration]|]; repeat growing_step.
  - intros _.
    destruct (negb (InfractionEnum.eqb (infraction_type self) NONE));
      cbv zeta; repeat growing_step.
Qed.

Lemma merge_messages_falsy (m1 m2 : value) :
  truthy m1 = false -> truthy m2 = false -> _merge_messages m1 m2 = Ok (VStr []).
Proof. intros H1 H2; unfold _merge_messages; rewrite H1, H2; reflexivity. Qed.

(** With nothing to say, the notification step does nothing. *)
Lemma notify_quiet (env : Env) (self : t) (w : World) :
  truthy (dm_content self) = false ->
  truthy (dm_embed self) = false ->
  FilterContext.dm_content (ctx w) = [] ->
  truthy (description (FilterContext.dm_embed (ctx w))) = false ->
  notify env self w = (Ok tt, w).
Proof.
  intros H1 H2 H3 H4.
  unfold notify, Platform.bind, get_ctx, lift.
  rewrite H3, (@merge_messages_falsy (VStr []) _ eq_refl H1),
    (@merge_messages_falsy _ _ H4 H2).
  reflexivity.
Qed.

(** An entry with no infraction, no embedded superstar and nothing to notify,
    applied to a context that holds no notification: [action] returns and
    leaves the world as it was. *)
Theorem action_nothing_to_do (env : Env) (self : t) (w : World) (m : Message) :
  infraction_type self = NONE ->
  _superstar self = None ->
  truthy (dm_content self) = false ->
  truthy (dm_embed self) = false ->
  FilterContext.dm_content (ctx w) = [] ->
  truthy (description (FilterContext.dm_embed (ctx w))) = false ->
  message (ctx w) = Some m ->
  action env self w = (Ok tt, w).
Proof.
  intros HT HS H1 H2 H3 H4 HM.
  unfold action, Platform.bind.
  rewrite (notify_quiet env self w H1 H2 H3 H4).
  unfold get_ctx, lift; rewrite HM, HS, HT; reflexivity.
Qed.

Lemma action_nothing_to_do_witness :
  action Sample.dm_blocked (Sample.notification "") Sample.fresh
  = (Ok tt, Sample.fresh).
Proof.
  apply (@action_nothing_to_do Sample.dm_blocked (Sample.notification "")
           Sample.fresh Sample.hello); reflexivity.
Defined.

(** The expiry of a command when the duration fits a [timedelta] and the
    date it leads to is in the calendar. *)
Lemma expiry_in_range (env : Env) (d : Z) (w : World) :
  (-86399999913600 <= d <= 86399999999999)%Z ->
  (-62135596800000000 <= utcnow env (calls w) + 1000000 * d
   <= 253402300799999999)%Z ->
  expiry env (Some d) w = (Ok (utcnow env (calls w) + 1000000 * d)%Z, w).
Proof.
  intros [H1 H2] [H3 H4].
  unfold expiry, Platform.bind, read_clock, lift, timedelta.
  apply Z.leb_le in H1, H2; rewrite H1, H2; cbn [andb].
  unfold datetime_add.
  apply Z.leb_le in H3, H4; rewrite H3, H4; reflexivity.
Qed.



(** A duration that no [timedelta] holds, or an expiry after the year 9999:
    [action] raises [OverflowError] and asks for nothing. *)
Lemma action_duration_out_of_range :
  action Sample.dm_blocked (Sample.entry MUTE "spam" (Some 1000000000000000%Z))
    Sample.fresh
  = (Raise OverflowError, Sample.fresh)
  /\ action Sample.dm_blocked (Sample.entry MUTE "spam" (Some 300000000000%Z))
       Sample.fresh
     = (Raise OverflowError, Sample.fresh).
Proof. split; reflexivity. Qed.

(** The notification step when the private message is delivered. *)
Lemma notify_delivered (env : Env) (self : t) (w : World) (text embed_text : value) :
  _merge_messages (VStr (FilterContext.dm_content (ctx w))) (dm_content self) = Ok text ->
  _merge_messages (description (FilterContext.dm_embed (ctx w))) (dm_embed self)
  = Ok embed_text ->
  truthy text || truthy embed_text = true ->
  (forall u s e, author_send env u s e = Ok tt) ->
  exists e,
    notify env self w
    = (Ok tt,
       {| ctx := append_description (set_dm_embed (ctx w) e) (lit "notified");
          calls := calls w
                     ++ [AuthorSend (author (ctx w))
                           (lit "Hey " ++ mention (author (ctx w)) ++ lit "!"
                                ++ newline ++ format_value env text) e] |})
    /\ description e = embed_text.
Proof.
  intros H1 H2 H3 HA.
  unfold notify, Platform.bind, get_ctx, lift.
  rewrite H1, H2, H3.
  unfold modify_ctx, try_except, request, Platform.bind, get_ctx.
  cbn [ctx calls FilterContext.dm_embed FilterContext.dm_content set_dm_embed
       author channel].
  destruct (colour (set_description (FilterContext.dm_embed (ctx w)) embed_text))
    eqn:EC;
    cbn [ctx calls FilterContext.dm_embed FilterContext.dm_content set_dm_embed
         author channel];
    rewrite HA; cbn [ctx calls]; eexists; split; reflexivity.
Qed.

(** An entry that notifies, carries an embedded superstar and has an
    infraction, each with a duration that fits a [timedelta], on a platform
    that accepts every request and whose clock, read after the first and
    after the second request, leads to expiries in the calendar: [action] sends the private message, then
    asks for the superstar, then for the infraction, each to expire its
    duration after the clock as read just before the request, and records
    "notified", "superstarred" and the lower-case name of the infraction, in
    this order.  Times are in microseconds, durations in seconds. *)
Theorem action_all_steps (env : Env) (self : t) (w : World) (m : Message)
    (text embed_text reason : value) (ds d : Z) :
  _merge_messages (VStr (FilterContext.dm_content (ctx w))) (dm_content self) = Ok text ->
  _merge_messages (description (FilterContext.dm_embed (ctx w))) (dm_embed self)
  = Ok embed_text ->
  truthy text || truthy embed_text = true ->
  _superstar self = Some (reason, Some ds) ->
  infraction_type self <> NONE ->
  infraction_duration self = Some d ->
  message (ctx w) = Some m ->
  (-86399999913600 <= ds <= 86399999999999)%Z ->
  (-86399999913600 <= d <= 86399999999999)%Z ->
  (forall c1,
     (-62135596800000000 <= utcnow env (calls w ++ [c1]) + 1000000 * ds
      <= 253402300799999999)%Z) ->
  (forall c1 c2,
     (-62135596800000000 <= utcnow env ((calls w ++ [c1]) ++ [c2]) + 1000000 * d
      <= 253402300799999999)%Z) ->
  (forall u s e, author_send env u s e = Ok tt) ->
  (forall cmd ch u x r, invoke env cmd ch u x r = Ok tt) ->
  exists e ch,
    let log1 :=
      calls w
        ++ [AuthorSend (author (ctx w))
              (lit "Hey " ++ mention (author (ctx w)) ++ lit "!"
                   ++ newline ++ format_value env text) e] in
    let log2 :=
      log1 ++ [Invoke (lit "superstar") (msg_channel m) (author (ctx w))
                 (utcnow env log1 + 1000000 * ds) reason] in
    fst (action env self w) = Ok tt
    /\ calls (snd (action env self w))
       = log2 ++ [Invoke (InfractionEnum.name (infraction_type self)) ch
                    (author (ctx w)) (utcnow env log2 + 1000000 * d)
                    (infraction_reason self)]
    /\ action_descriptions (ctx (snd (action env self w)))
       = action_descriptions (ctx w)
           ++ [lit "notified"; lit "superstarred";
               lower (InfractionEnum.name (infraction_type self))].
Proof.
  intros H1 H2 H3 HS HT HD HM Hds Hd Hc1 Hc2 HA HI.
  destruct (notify_delivered env self w H1 H2 H3 HA) as (e & Hn & _).
  exists e; eexists; cbv zeta.
  destruct (action env self w) as [r W] eqn:EA.
  unfold action, Platform.bind in EA; rewrite Hn in EA.
  unfold get_ctx, lift in EA;
    cbn [ctx message append_description set_dm_embed] in EA.
  rewrite HM, HS, HD, (Infraction_eqb_neq HT) in EA.
  cbn [get_context negb] in EA.
  rewrite expiry_in_range in EA; [|exact Hds | apply Hc1].
  unfold request at 1, modify_ctx at 1 in EA; rewrite HI in EA;
    cbn [ctx calls] in EA.
  rewrite expiry_in_range in EA; [|exact Hd | apply Hc2].
  unfold request, modify_ctx in EA; rewrite HI in EA.
  cbn [ctx calls] in EA.
  injection EA as <- <-.
  cbn [fst snd ctx calls action_descriptions append_description set_dm_embed author].
  split; [reflexivity|split].
  - reflexivity.
  - rewrite <- !app_assoc; reflexivity.
Qed.

Lemma action_all_steps_witness :
  exists e ch,
    let log1 :=
      calls Sample.fresh
        ++ [AuthorSend (author (ctx Sample.fresh))
              (lit "Hey " ++ mention (author (ctx Sample.fresh)) ++ lit "!"
                   ++ newline
                   ++ format_value Sample.obliging (VStr (lit "be nice"))) e] in
    let log2 :=
      log1 ++ [Invoke (lit "superstar") (msg_channel Sample.hello)
                 (author (ctx Sample.fresh))
                 (utcnow Sample.obliging log1 + 1000000 * 3600)
                 (VStr (lit "nick"))] in
    fst (action Sample.obliging Sample.full_entry Sample.fresh) = Ok tt
    /\ calls (snd (action Sample.obliging Sample.full_entry Sample.fresh))
       = log2 ++ [Invoke (InfractionEnum.name (infraction_type Sample.full_entry)) ch
                    (author (ctx Sample.fresh))
                    (utcnow Sample.obliging log2 + 1000000 * 600)
                    (infraction_reason Sample.full_entry)]
    /\ action_descriptions (ctx (snd (action Sample.obliging Sample.full_entry Sample.fresh)))
       = action_descriptions (ctx Sample.fresh)
           ++ [lit "notified"; lit "superstarred";
               lower (InfractionEnum.name (infraction_type Sample.full_entry))].
Proof.
  apply (@action_all_steps Sample.obliging Sample.full_entry Sample.fresh
           Sample.hello (VStr (lit "be nice")) (VStr []) (VStr (lit "nick"))
           3600%Z 600%Z); try reflexivity; try discriminate; try lia;
    intros; cbn; lia.
Defined.

(** On the sample the clock moves with every request, and the two expiries
    are counted from two readings, a second apart. *)
Lemma action_all_steps_sample :
  List.map (fun c => match c with
                     | Invoke _ _ _ expires _ => expires
                     | _ => 0%Z
                     end)
           (calls (snd (action Sample.obliging Sample.full_entry Sample.fresh)))
  = [0; 1700003601000000; 1700000602000000]%Z.
Proof. reflexivity. Qed.

(** When the private message fails with an exception other than the refusal
    of the member, [action] raises it at once: the message was asked for,
    nothing is recorded, and neither the superstar nor the infraction is
    requested. *)
Theorem action_dm_error_aborts (env : Env) (self : t) (w : World)
    (text embed_text : value) (x : exn) :
  _merge_messages (VStr (FilterContext.dm_content (ctx w))) (dm_content self) = Ok text ->
  _merge_messages (description (FilterContext.dm_embed (ctx w))) (dm_embed self)
  = Ok embed_text ->
  truthy text || truthy embed_text = true ->
  is_Forbidden x = false ->
  (forall u s e, author_send env u s e = Raise x) ->
  exists e,
    fst (action env self w) = Raise x
    /\ calls (snd (action env self w))
       = calls w
           ++ [AuthorSend (author (ctx w))
                 (lit "Hey " ++ mention (author (ctx w)) ++ lit "!"
                      ++ newline ++ format_value env text) e]
    /\ action_descriptions (ctx (snd (action env self w)))
       = action_descriptions (ctx w).
Proof.
  intros H1 H2 H3 HX HA.
  unfold action, notify, Platform.bind, get_ctx, lift.
  rewrite H1, H2, H3.
  unfold modify_ctx, try_except, request, Platform.bind, get_ctx.
  cbn [ctx calls FilterContext.dm_embed FilterContext.dm_content set_dm_embed
       author channel].
  destruct (colour (set_description (FilterContext.dm_embed (ctx w)) embed_text))
    eqn:EC;
    cbn [ctx calls FilterContext.dm_embed FilterContext.dm_content set_dm_embed
         author channel];
    rewrite HA, HX; cbn [fst snd ctx calls action_descriptions];
    eexists; repeat split.
Qed.

Lemma action_dm_error_aborts_witness :
  exists e,
    fst (action Sample.dm_broken Sample.full_entry Sample.fresh) = Raise HTTPException
    /\ calls (snd (action Sample.dm_broken Sample.full_entry Sample.fresh))
       = calls Sample.fresh
           ++ [AuthorSend (author (ctx Sample.fresh))
                 (lit "Hey " ++ mention (author (ctx Sample.fresh)) ++ lit "!"
                      ++ newline
                      ++ format_value Sample.dm_broken (VStr (lit "be nice"))) e]
    /\ action_descriptions (ctx (snd (action Sample.dm_broken Sample.full_entry Sample.fresh)))
       = action_descriptions (ctx Sample.fresh).
Proof.
  apply (@action_dm_error_aborts Sample.dm_broken Sample.full_entry Sample.fresh
           (VStr (lit "be nice")) (VStr []) HTTPException); reflexivity.
Defined.

Lemma notify_blocked_witness :
  exists e,
    calls (snd (notify Sample.dm_blocked Sample.full_entry Sample.fresh))
    = calls Sample.fresh
        ++ [AuthorSend (author (ctx Sample.fresh))
              (lit "Hey " ++ mention (author (ctx Sample.fresh)) ++ lit "!" ++ newline
                   ++ format_value Sample.dm_blocked (VStr (lit "be nice"))) e;
            ChannelSend (channel (ctx Sample.fresh))
              (FilterContext.dm_content (ctx Sample.fresh)) e]
    /\ description e = VStr [].
Proof.
  apply (@notify_blocked Sample.dm_blocked Sample.full_entry Sample.fresh
           (VStr (lit "be nice")) (VStr [])); reflexivity.
Defined.

(** ** [subscribe] and the fan-out of [on_message] *)

Section SubscriptionProperties.

Import Filtering.

Variable Actions : Type.

Lemma Event_eqb_eq (a b : Event) : Event_eqb a b = true <-> a = b.
Proof. destruct a, b; cbn; split; congruence. Qed.

Lemma list_in_In (l : FilterList Actions) (ls : list (FilterList Actions)) :
  list_in l ls = true <-> In (list_key l) (List.map (@list_key Actions) ls).
Proof.
  unfold list_in; rewrite existsb_exists, in_map_iff.
  split; intros (x & H1 & H2).
  - exists x; split; [apply N.eqb_eq; assumption | assumption].
  - exists x; split; [assumption | apply N.eqb_eq; assumption].
Qed.

Lemma list_in_app (l : FilterList Actions) (ls : list (FilterList Actions)) :
  list_in l (ls ++ [l]) = true.
Proof.
  apply list_in_In; rewrite map_app; apply in_or_app; right; left; reflexivity.
Qed.

(** The subscriptions after [subscribe], event by event. *)
Lemma subscribe_at (events : list Event) :
  forall (self : Cog Actions) (l : FilterList Actions) (e : Event),
    _subscriptions (subscribe self l events) e
    = if existsb (Event_eqb e) events && negb (list_in l (_subscriptions self e))
      then _subscriptions self e ++ [l]
      else _subscriptions self e.
Proof.
  induction events as [|ev events IH]; intros self l e; [reflexivity|].
  cbn [subscribe fold_left existsb].
  change (fold_left (fun self0 event => subscribe_event self0 l event) events
            (subscribe_event self l ev))
    with (subscribe (subscribe_event self l ev) l events).
  rewrite IH; unfold subscribe_event.
  destruct (list_in l (_subscriptions self ev)) eqn:Hin.
  - destruct (Event_eqb e ev) eqn:He; [|reflexivity].
    apply Event_eqb_eq in He; subst ev; rewrite Hin.
    rewrite andb_false_r; reflexivity.
  - cbn [_subscriptions].
    destruct (Event_eqb e ev) eqn:He.
    + apply Event_eqb_eq in He; subst ev.
      rewrite list_in_app, Hin, andb_false_r; reflexivity.
    + reflexivity.
Qed.

Lemma subscribe_event_once (self : Cog Actions) (l : FilterList Actions) (ev : Event) :
  no_list_twice self -> no_list_twice (subscribe_event self l ev).
Proof.
  intros H e; unfold subscribe_event.
  destruct (list_in l (_subscriptions self ev)) eqn:Hin; [apply H|].
  cbn [_subscriptions].
  destruct (Event_eqb e ev); [|apply H].
  rewrite map_app; cbn [List.map].
  apply NoDup_app; [apply H | repeat constructor; intros [] | ].
  intros k Hk [<-|[]].
  apply list_in_In in Hk; congruence.
Qed.

End SubscriptionProperties.

(** [subscribe] never leaves a filter list twice in the list of an event:
    subscriptions free of repetitions stay so, whatever list is subscribed
    to whatever events, repeated or not. *)
Theorem subscribe_keeps_lists_once (Actions : Type) (self : Filtering.Cog Actions)
    (l : Filtering.FilterList Actions) (events : list Event) :
  Filtering.no_list_twice self ->
  Filtering.no_list_twice (Filtering.subscribe self l events).
Proof.
  revert self; induction events as [|ev events IH]; intros self H; [exact H|].
  apply IH, subscribe_event_once, H.
Qed.

Lemma subscribe_keeps_lists_once_witness :
  Filtering.no_list_twice
    (Filtering.subscribe Sample.cog Sample.quiet_list [MESSAGE; MESSAGE_EDIT; MESSAGE]).
Proof.
  apply (@subscribe_keeps_lists_once t Sample.cog Sample.quiet_list
           [MESSAGE; MESSAGE_EDIT; MESSAGE]).
  intros []; repeat constructor; intros [].
Defined.

(** What [subscribe] does to the list of an event: for an event it was not
    called with, nothing; for one it was called with, the filter list is
    subscribed afterwards, and the list is the old one, or the old one with
    the filter list added at its end.  Subscribing a second time changes
    nothing. *)
Theorem subscribe_result (Actions : Type) (self : Filtering.Cog Actions)
    (l : Filtering.FilterList Actions) (events : list Event) (e : Event) :
  let after := Filtering.subscribe self l events in
  (~ In e events ->
   Filtering._subscriptions after e = Filtering._subscriptions self e)
  /\ (In e events -> Filtering.list_in l (Filtering._subscriptions after e) = true)
  /\ (Filtering._subscriptions after e = Filtering._subscriptions self e
      \/ Filtering._subscriptions after e = Filtering._subscriptions self e ++ [l])
  /\ Filtering._subscriptions (Filtering.subscribe after l events) e
     = Filtering._subscriptions after e.
Proof.
  cbv zeta.
  assert (Hafter : Filtering.list_in l
                     (Filtering._subscriptions (Filtering.subscribe self l events) e)
                   = true
                   \/ existsb (Filtering.Event_eqb e) events = false).
  { rewrite subscribe_at.
    destruct (existsb (Filtering.Event_eqb e) events); [left | right; reflexivity].
    destruct (Filtering.list_in l (Filtering._subscriptions self e)) eqn:Hin;
      cbn; [exact Hin | apply list_in_app]. }
  repeat split.
  - intros Hn; rewrite subscribe_at.
    destruct (existsb (Filtering.Event_eqb e) events) eqn:Hex; [|reflexivity].
    apply existsb_exists in Hex; destruct Hex as (x & Hx & Heq).
    apply Event_eqb_eq in Heq; subst x; contradiction.
  - intros Hin; destruct Hafter as [H|H]; [exact H|].
    assert (existsb (Filtering.Event_eqb e) events = true) as H'.
    { apply existsb_exists; exists e; split; [exact Hin | apply Event_eqb_eq; reflexivity]. }
    congruence.
  - rewrite subscribe_at.
    destruct (existsb (Filtering.Event_eqb e) events
              && negb (Filtering.list_in l (Filtering._subscriptions self e)));
      [right | left]; reflexivity.
  - rewrite (subscribe_at events (Filtering.subscribe self l events)).
    destruct Hafter as [-> | ->]; [rewrite andb_false_r|]; reflexivity.
Qed.

Section FanOutProperties.

Import Filtering.

Variable Actions : Type.

Lemma dict_set_new (d : list (FilterList Actions * list (Filter Actions))) k v :
  ~ In (list_key k) (List.map (fun p => list_key (fst p)) d) ->
  dict_set d k v = d ++ [(k, v)].
Proof.
  induction d as [|[k' v'] d IH]; intros H; cbn; [reflexivity|].
  cbn in H.
  destruct (N.eqb_spec (list_key k') (list_key k)) as [E|E].
  - exfalso; apply H; left; exact E.
  - rewrite IH; [reflexivity | intros Hin; apply H; right; exact Hin].
Qed.

Lemma collect_in_order (c : FilterContext.t) (ls : list (FilterList Actions)) :
  forall d : list (FilterList Actions * list (Filter Actions)),
    NoDup (List.map (fun p => list_key (fst p)) d ++ List.map (@list_key Actions) ls) ->
    fold_left (fun d l => dict_set d l (triggers_for l c)) ls d
    = d ++ List.map (fun l => (l, triggers_for l c)) ls.
Proof.
  induction ls as [|l ls IH]; intros d H; cbn [fold_left List.map].
  - rewrite app_nil_r; reflexivity.
  - cbn [List.map] in H.
    rewrite dict_set_new.
    + rewrite IH; [rewrite <- app_assoc; reflexivity|].
      rewrite map_app; cbn [List.map fst]; rewrite <- app_assoc; exact H.
    + apply NoDup_remove_2 in H.
      intros Hin; apply H, in_or_app; left; exact Hin.
Qed.

End FanOutProperties.

(** The dispatch of a message of a member by a cog whose subscriptions hold
    no filter list twice.  With no list subscribed it ends at once.  Else
    the actions of the filters that triggered are merged from the left, in
    the order of the subscriptions and, within a list, in the order its
    filters were reported; the result is applied once; and the alert, if the
    context still asks for one, is told of every subscribed list with its
    filters, in the same order. *)
Theorem on_message_in_subscription_order (Actions : Type)
    (actions_or : Actions -> Actions -> res Actions)
    (actions_action : Env -> Actions -> M unit)
    (env : Env) (self : Filtering.Cog Actions) (msg : Message) (log : list call) :
  bot (msg_author msg) = false ->
  NoDup (List.map (@Filtering.list_key Actions) (Filtering._subscriptions self MESSAGE)) ->
  let ctx0 := Filtering.new_context msg in
  let lists := Filtering._subscriptions self MESSAGE in
  Filtering.on_message actions_or actions_action env self msg log
  = match lists with
    | [] => (Ok tt, Some ctx0, log)
    | _ :: _ =>
        let '(r, w) :=
          (result_actions <-
             lift (Filtering.reduce_or actions_or
                     (List.flat_map
                        (fun l => List.map (@Filtering.actions Actions)
                                    (Filtering.triggers_for l ctx0))
                        lists)) ;;
           actions_action env result_actions ;;
           c <- get_ctx ;;
           if send_alert c
           then Filtering._send_alert env self
                  (List.map (fun l => (l, Filtering.triggers_for l ctx0)) lists)
           else ret tt)%world {| ctx := ctx0; calls := log |} in
        (r, Some (ctx w), calls w)
    end.
Proof.
  intros Hbot Hnodup ctx0 lists.
  unfold Filtering.on_message; rewrite Hbot; cbv zeta.
  fold ctx0; fold lists.
  rewrite (@collect_in_order Actions ctx0 lists []); [|exact Hnodup].
  cbn [app].
  destruct lists as [|l ls]; [reflexivity|].
  cbn [List.map].
  replace (List.flat_map
             (fun '(_, filters) => List.map (@Filtering.actions Actions) filters)
             ((l, Filtering.triggers_for l ctx0)
                :: List.map (fun l0 => (l0, Filtering.triggers_for l0 ctx0)) ls))
    with (List.flat_map
            (fun l0 => List.map (@Filtering.actions Actions)
                         (Filtering.triggers_for l0 ctx0)) (l :: ls)).
  - reflexivity.
  - change ((l, Filtering.triggers_for l ctx0)
              :: List.map (fun l0 => (l0, Filtering.triggers_for l0 ctx0)) ls)
      with (List.map (fun l0 => (l0, Filtering.triggers_for l0 ctx0)) (l :: ls)).
    generalize (l :: ls); intros xs.
    induction xs as [|x xs IH]; [reflexivity|].
    cbn [List.map List.flat_map]; rewrite IH; reflexivity.
Qed.

Lemma on_message_in_subscription_order_witness :
  let ctx0 := Filtering.new_context Sample.hello in
  let lists := Filtering._subscriptions Sample.busy_cog MESSAGE in
  Filtering.on_message (__or__ Sample.to_dict_attributes) action
    Sample.obliging Sample.busy_cog Sample.hello []
  = match lists with
    | [] => (Ok tt, Some ctx0, [])
    | _ :: _ =>
        let '(r, w) :=
          (result_actions <-
             lift (Filtering.reduce_or (__or__ Sample.to_dict_attributes)
                     (List.flat_map
                        (fun l => List.map (@Filtering.actions t)
                                    (Filtering.triggers_for l ctx0))
                        lists)) ;;
           action Sample.obliging result_actions ;;
           c <- get_ctx ;;
           if send_alert c
           then Filtering._send_alert Sample.obliging Sample.busy_cog
                  (List.map (fun l => (l, Filtering.triggers_for l ctx0)) lists)
           else ret tt)%world {| ctx := ctx0; calls := [] |} in
        (r, Some (ctx w), calls w)
    end.
Proof.
  apply (@on_message_in_subscription_order t (__or__ Sample.to_dict_attributes)
           action Sample.obliging Sample.busy_cog Sample.hello []).
  - reflexivity.
  - repeat constructor; cbn; intuition discriminate.
Defined.

(** On the sample both lists report a filter; the mute is applied and the
    alert is sent, and the notification of the other filter is not. *)
Lemma on_message_sample :
  let '(r, c, log) :=
    Filtering.on_message (__or__ Sample.to_dict_attributes) action
      Sample.obliging Sample.busy_cog Sample.hello [] in
  r = Ok tt
  /\ List.map (fun x => match x with
                        | AuthorSend _ _ _ => 1 | ChannelSend _ _ _ => 2
                        | Invoke _ _ _ _ _ => 3 | WebhookSend _ _ _ => 4
                        end) log = [3; 4]
  /\ option_map action_descriptions c = Some [lit "mute"].
Proof. repeat split; reflexivity. Qed.

(** ** The summary of the filters in the alert *)

(** When the summary is not for one single filter and every list reported
    exactly one filter, the summary is one line per list that holds the
    filter alone: the name of its list is not in it, since the header is part
    of the separator, which a single filter does not need. *)
Theorem filters_summary_one_filter_each (Actions : Type) (env : Env)
    (found : list (Filtering.FilterList Actions * Filtering.Filter Actions)) :
  List.length found <> 1 ->
  Filtering.filters_summary env (List.map (fun p => (fst p, [snd p])) found)
  = join newline (List.map (fun p => Filtering.filter_ref env (snd p)) found).
Proof.
  intros Hlen.
  destruct found as [|p1 [|p2 found]]; [reflexivity | cbn in Hlen; congruence |].
  unfold Filtering.filters_summary.
  cbn [List.map fst snd].
  change (join (Filtering.list_header env (fst p1) ++ lit ", ")
            [Filtering.filter_ref env (snd p1)])
    with (Filtering.filter_ref env (snd p1)).
  change (join (Filtering.list_header env (fst p2) ++ lit ", ")
            [Filtering.filter_ref env (snd p2)])
    with (Filtering.filter_ref env (snd p2)).
  clear Hlen; do 3 f_equal.
  induction found as [|p found IH]; [reflexivity|].
  cbn [List.map fst snd]; rewrite IH; reflexivity.
Qed.

Lemma filters_summary_one_filter_each_witness :
  Filtering.filters_summary Sample.obliging
    (List.map (fun p => (fst p, [snd p]))
       [(Sample.invite_list, Sample.invite_filter);
        (Sample.token_list, Sample.token_filter)])
  = join newline
      (List.map (fun p => Filtering.filter_ref Sample.obliging (snd p))
         [(Sample.invite_list, Sample.invite_filter);
          (Sample.token_list, Sample.token_filter)]).
Proof.
  apply (@filters_summary_one_filter_each t Sample.obliging
           [(Sample.invite_list, Sample.invite_filter);
            (Sample.token_list, Sample.token_filter)]).
  discriminate.
Defined.

(** ** [init_cog] *)

Section LoadingProperties.

Import Filtering.

Variable filter_list_types : str -> bool.

Lemma name_in_In {A : Type} (name : str) (d : list (str * A)) :
  name_in name d = true <-> In name (List.map fst d).
Proof.
  unfold name_in; rewrite existsb_exists, in_map_iff.
  split; intros (p & H1 & H2).
  - exists p; split; [apply str_eqb_eq; assumption | assumption].
  - exists p; split; [assumption | apply str_eqb_eq; assumption].
Qed.


Lemma add_list_raises d name raw e : add_list d name raw = Raise e -> e = KeyError.
Proof.
  induction d as [|[n raws] d IH]; cbn; [congruence|].
  destruct (str_eqb n name); [discriminate|].
  destruct (add_list d name raw); cbn; [discriminate | intros H; apply IH; congruence].
Qed.




(** The loop never touches the webhook. *)
Lemma load_lists_webhook raws :
  forall warned self,
    fetched_webhook (snd (load_lists filter_list_types raws warned self))
    = fetched_webhook self.
Proof.
  induction raws as [|raw raws IH]; intros warned self; [reflexivity|].
  cbn [load_lists].
  repeat match goal with
         | |- context [if ?b then _ else _] => destruct b
         | |- context [match add_list ?d ?n ?r with _ => _ end] =>
             destruct (add_list d n r)
         end; try rewrite IH; reflexivity.
Qed.

(** The only exception of the loop is [KeyError]. *)
Lemma load_lists_raises raws :
  forall warned self e,
    fst (load_lists filter_list_types raws warned self) = Raise e -> e = KeyError.
Proof.
  induction raws as [|raw raws IH]; intros warned self e; [discriminate|].
  cbn [load_lists].
  repeat match goal with
         | |- context [if ?b then _ else _] => destruct b
         | |- context [match add_list ?d ?n ?r with _ => _ end] =>
             let E := fresh "E" in destruct (add_list d n r) eqn:E
         end; try apply IH; cbn [fst]; intros H; try congruence;
    inversion H; subst; eapply add_list_raises; eassumption.
Qed.

Lemma add_list_keys d name raw d' :
  add_list d name raw = Ok d' -> List.map fst d' = List.map fst d.
Proof.
  revert d'; induction d as [|[n raws] d IH]; intros d'; cbn; [discriminate|].
  destruct (str_eqb n name).
  - intros H; inversion H; reflexivity.
  - destruct (add_list d name raw) as [d''|]; cbn; [|discriminate].
    intros H; inversion H; cbn; rewrite (IH d'' eq_refl); reflexivity.
Qed.

(** Every key of the dictionary is a name with a class. *)
Lemma load_step raw rest warned self :
  (forall k, In k (List.map fst (filter_lists self)) -> filter_list_types k = true) ->
  (exists e, fst (load_lists filter_list_types (raw :: rest) warned self) = Raise e)
  \/ (exists warned' self',
        load_lists filter_list_types (raw :: rest) warned self
        = load_lists filter_list_types rest warned' self'
        /\ (forall k, In k (List.map fst (filter_lists self')) ->
                      filter_list_types k = true)
        /\ (forall x, existsb (str_eqb x) warned = true ->
                      existsb (str_eqb x) warned' = true)
        /\ (filter_list_types (raw_name raw) = false ->
            existsb (str_eqb (raw_name raw)) warned = false
            /\ existsb (str_eqb (raw_name raw)) warned' = true)).
Proof.
  intros K; cbn [load_lists].
  destruct (name_in (raw_name raw) (filter_lists self)) eqn:Hin; cbn [negb].
  - assert (filter_list_types (raw_name raw) = true) as T
      by (apply K, name_in_In; exact Hin).
    destruct (add_list (filter_lists self) (raw_name raw) raw) as [d'|e] eqn:E.
    + right; do 2 eexists; split; [reflexivity|]; cbn [filter_lists].
      split; [rewrite (add_list_keys _ _ _ E); exact K|].
      split; [auto | congruence].
    + left; eexists; reflexivity.
  - destruct (filter_list_types (raw_name raw)) eqn:T; cbn [negb andb].
    + destruct (add_list (filter_lists self ++ [(raw_name raw, [])]) (raw_name raw) raw)
        as [d'|e] eqn:E.
      * right; do 2 eexists; split; [reflexivity|]; cbn [filter_lists].
        split; [|split; [auto | congruence]].
        rewrite (add_list_keys _ _ _ E), map_app; cbn.
        intros k Hk; apply in_app_or in Hk; destruct Hk as [Hk|[<-|[]]]; auto.
      * left; eexists; reflexivity.
    + destruct (existsb (str_eqb (raw_name raw)) warned) eqn:W; cbn [negb].
      * left; eexists; reflexivity.
      * right; do 2 eexists; split; [reflexivity|]; cbn [filter_lists].
        split; [exact K|].
        split; [intros x Hx; cbn; rewrite Hx; apply orb_true_r|].
        intros _; split; [reflexivity | cbn; rewrite str_eqb_refl; reflexivity].
Qed.

Lemma load_not_ok_warned (n : str) :
  filter_list_types n = false ->
  forall raws warned self,
    (forall k, In k (List.map fst (filter_lists self)) -> filter_list_types k = true) ->
    existsb (str_eqb n) warned = true ->
    In n (List.map raw_name raws) ->
    fst (load_lists filter_list_types raws warned self) <> Ok tt.
Proof.
  intros Tn; induction raws as [|raw rest IH]; intros warned self K W I; [destruct I|].
  destruct (@load_step raw rest warned self K) as [[e He]|(w' & s' & -> & K' & Mono & New)].
  - rewrite He; discriminate.
  - apply IH; [exact K' | apply Mono, W |].
    destruct I as [I|I]; [|exact I].
    rewrite I in New; destruct (New Tn) as [H _]; congruence.
Qed.

Lemma load_not_ok_twice (n : str) :
  filter_list_types n = false ->
  forall raws a b c warned self,
    (forall k, In k (List.map fst (filter_lists self)) -> filter_list_types k = true) ->
    List.map raw_name raws = a ++ n :: b ++ n :: c ->
    fst (load_lists filter_list_types raws warned self) <> Ok tt.
Proof.
  intros Tn; induction raws as [|raw rest IH]; intros a b c warned self K E.
  - destruct a; discriminate.
  - destruct (@load_step raw rest warned self K) as [[e He]|(w' & s' & -> & K' & Mono & New)].
    + rewrite He; discriminate.
    + destruct a as [|x a]; cbn in E; injection E as E1 E2.
      * apply load_not_ok_warned with (n := n); [exact Tn | exact K' | |].
        -- rewrite E1 in New; destruct (New Tn) as [_ H]; exact H.
        -- rewrite E2; apply in_or_app; right; left; reflexivity.
      * apply (IH a b c); assumption.
Qed.

End LoadingProperties.

(** When a name without a class comes twice among the raw lists, [init_cog]
    raises [KeyError]: the first time the name is warned of and skipped, the
    second time the table of the classes is read at that name.  The webhook
    is then never fetched. *)
Theorem init_cog_unknown_name_twice (filter_list_types : str -> bool)
    (raw_filter_lists : list Filtering.RawFilterList) (fetch_webhook : res N)
    (name : str) (a b c : list str) :
  filter_list_types name = false ->
  List.map Filtering.raw_name raw_filter_lists = a ++ name :: b ++ name :: c ->
  fst (Filtering.init_cog filter_list_types raw_filter_lists fetch_webhook
         Filtering.not_loaded) = Raise KeyError
  /\ Filtering.fetched_webhook
       (snd (Filtering.init_cog filter_list_types raw_filter_lists fetch_webhook
               Filtering.not_loaded)) = None.
Proof.
  intros T E.
  unfold Filtering.init_cog.
  pose proof (@load_not_ok_twice filter_list_types name T raw_filter_lists a b c []
                Filtering.not_loaded (fun k (H : In k []) => match H with end) E) as Hn.
  pose proof (load_lists_raises filter_list_types raw_filter_lists []
                Filtering.not_loaded) as Hr.
  pose proof (load_lists_webhook filter_list_types raw_filter_lists []
                Filtering.not_loaded) as Hw.
  destruct (Filtering.load_lists filter_list_types raw_filter_lists []
              Filtering.not_loaded) as [[[]|e] st]; cbn [fst snd] in *.
  - congruence.
  - rewrite (Hr e eq_refl); split; [reflexivity | exact Hw].
Qed.

Lemma init_cog_unknown_name_twice_witness :
  fst (Filtering.init_cog Sample.has_class Sample.raws_twice (Ok 9%N)
         Filtering.not_loaded) = Raise KeyError
  /\ Filtering.fetched_webhook
       (snd (Filtering.init_cog Sample.has_class Sample.raws_twice (Ok 9%N)
               Filtering.not_loaded)) = None.
Proof.
  apply (@init_cog_unknown_name_twice Sample.has_class Sample.raws_twice (Ok 9%N)
           (lit "unicorn") [lit "token"] [lit "token"] []); reflexivity.
Defined.

Section LoadedProperties.

Import Filtering.

Variable filter_list_types : str -> bool.







End LoadedProperties.



(** An exception of the fetch that is no [HTTPException] is not caught:
    [init_cog] raises it, after the lists were loaded, and logs no error. *)
Lemma init_cog_fetch_error_escapes :
  Filtering.init_cog Sample.has_class Sample.raws_once (Raise TypeError)
    Filtering.not_loaded
  = (Raise TypeError,
     {| Filtering.filter_lists :=
          [(lit "token", [Sample.raw "token" 1; Sample.raw "token" 3])];
        Filtering.fetched_webhook := None;
        Filtering.warnings := [lit "unicorn"];
        Filtering.errors := 0 |}).
Proof. reflexivity. Qed.

(** On the sample: the two raw lists of the name "token" are in one filter
    list, and the name without a class was warned of. *)
Lemma init_cog_sample :
  snd (Filtering.init_cog Sample.has_class Sample.raws_once (Ok 9%N) Filtering.not_loaded)
  = {| Filtering.filter_lists :=
         [(lit "token", [Sample.raw "token" 1; Sample.raw "token" 3])];
       Filtering.fetched_webhook := Some 9%N;
       Filtering.warnings := [lit "unicorn"];
       Filtering.errors := 0 |}.
Proof. reflexivity. Qed.

(** ** The thread bumper *)

(** Splits on the sign of [x] and replaces its absolute value. *)
Ltac abs_cases x :=
  let H := fresh "S" in
  destruct (Qlt_le_dec x 0) as [H|H];
  [rewrite (Qabs_neg x) in * by (apply Qlt_le_weak; exact H)
  |rewrite (Qabs_pos x) in * by exact H].

Section ThreadBumperProperties.

Import ThreadBumper.

(** The float the test compares with 1 is the exact difference up to
    [10^-15] of that difference plus the minutes. *)
Lemma difference_error (thread : Thread) (m : Message) :
  (Qabs (difference thread m - exact_difference thread m)
   <= (exact_difference thread m
       + Qabs (inject_Z (auto_archive_duration thread)))
      * (1 # 1000000000000000))%Q.
Proof.
  unfold difference, exact_difference, total_seconds, Float.sub, Float.mul,
    Float.truediv, Float.of_int.
  set (G := (archive_timestamp thread - created_at m)%Z).
  set (D := auto_archive_duration thread).
  assert (inject_Z (60 * G - 1000000 * D) / 1000000
          == 60 * (inject_Z G / inject_Z 1000000) - inject_Z D)%Q as ->.
  { unfold Z.sub; rewrite inject_Z_plus, inject_Z_opp, !inject_Z_mult.
    change (inject_Z 1000000) with 1000000%Q; change (inject_Z 60) with 60%Q.
    field. }
  assert (Float.round (inject_Z 60) == 60)%Q as H60 by reflexivity.
  set (x := (inject_Z G / inject_Z 1000000)%Q).
  pose proof (round_error x) as Hs.
  set (s := Float.round x) in *.
  pose proof (round_error (s * Float.round (inject_Z 60))) as Hp.
  set (p := Float.round (s * Float.round (inject_Z 60))) in *.
  pose proof (round_error (inject_Z D)) as HD.
  set (D' := Float.round (inject_Z D)) in *.
  pose proof (round_error (p - D')) as Hr.
  set (r := Float.round (p - D')) in *.
  set (d := inject_Z D) in *.
  set (c := Float.round (inject_Z 60)) in *.
  assert (s * c == s * 60)%Q as Hc by (rewrite H60; reflexivity).
  set (v := (s * c)%Q) in *.
  clearbody r D' p v s x d c; clear G D.
  unfold Float.eps in *.
  apply Qabs_Qle_condition in Hs, Hp, HD, Hr.
  apply Qabs_Qle_condition.
  abs_cases x; abs_cases v; abs_cases d; abs_cases (p - D')%Q;
    abs_cases r; abs_cases (60 * x - d)%Q; split; lra.
Qed.

(** Away from the bound the rounding does not matter: the test is the test
    of the exact difference, on both sides of a band around 1 of that
    width. *)
Lemma within_a_minute_exact (thread : Thread) (m : Message) :
  let band := ((exact_difference thread m
                + Qabs (inject_Z (auto_archive_duration thread)))
               * (1 # 1000000000000000))%Q in
  ((exact_difference thread m + band < 1)%Q -> within_a_minute thread m = true)
  /\ ((1 + band <= exact_difference thread m)%Q ->
      within_a_minute thread m = false).
Proof.
  intros band; subst band.
  pose proof (difference_error thread m) as H.
  apply Qabs_Qle_condition in H.
  unfold within_a_minute, Float.lt.
  destruct (Qcompare_spec (difference thread m) 1) as [E|E|E];
    split; intros B; try reflexivity; lra.
Qed.

(** A last message that is older than the archiving by the minutes of the
    automatic archiving, or more, fails the test. *)
Lemma within_a_minute_late (thread : Thread) (m : Message) :
  (1 <= auto_archive_duration thread)%Z ->
  (60 * 1000000 * auto_archive_duration thread
   <= archive_timestamp thread - created_at m)%Z ->
  within_a_minute thread m = false.
Proof.
  intros HD HG.
  apply (within_a_minute_exact thread m).
  unfold exact_difference.
  set (G := (archive_timestamp thread - created_at m)%Z) in *.
  set (D := auto_archive_duration thread) in *.
  assert (3599 * inject_Z D <= inject_Z (60 * G - 1000000 * D) / 1000000)%Q
    as Ht.
  { apply Qle_shift_div_l; [reflexivity|].
    change 3599%Q with (inject_Z 3599); change 1000000%Q with (inject_Z 1000000).
    rewrite <- !inject_Z_mult, <- Zle_Qle; lia. }
  assert (1 <= inject_Z D)%Q as Hd.
  { change 1%Q with (inject_Z 1); rewrite <- Zle_Qle; exact HD. }
  set (t := (inject_Z (60 * G - 1000000 * D) / 1000000)%Q) in *.
  set (d := inject_Z D) in *.
  clearbody t d.
  rewrite (Qabs_pos t) by lra.
  rewrite (Qabs_pos d) by lra.
  lra.
Qed.

(** On the bound the rounding decides.  A thread of 122 minutes archived
    2.05 seconds after its last message: the exact difference is 1, which is
    not below 1, but the product [2.05 * 60] of floats is just under 123,
    the test passes, and the thread is reopened. *)
Lemma within_a_minute_on_the_bound :
  let thread := {| thread_id := 11; archived := true;
                   archive_timestamp := 2050000;
                   auto_archive_duration := 122 |} in
  let m := Sample.first_message in
  (exact_difference thread m == 1)%Q
  /\ (difference thread m == 70368744177663 # 70368744177664)%Q
  /\ within_a_minute thread m = true
  /\ requests (snd (unarchive_if_not_manually_archived Sample.discord thread
                      Sample.bumping))
     = requests Sample.bumping ++ [Edit_unarchive 11].
Proof. repeat split; vm_compute; reflexivity. Qed.

Lemma ensure_each_skips (env : Env) (active rest : list N) (s : State) :
  (forall id, In id active ->
     exists thread, get_channel env id = Some thread /\ archived thread = false) ->
  ensure_each env (active ++ rest) s = ensure_each env rest s.
Proof.
  induction active as [|id active IH]; intros H; [reflexivity|].
  cbn [app ensure_each].
  destruct (H id (or_introl eq_refl)) as (thread & -> & ->); cbn [negb].
  apply IH; intros k Hk; apply H; right; exact Hk.
Qed.

End ThreadBumperProperties.

(** A thread that was archived the minutes of its automatic archiving after
    its last message, or later, is not reopened by
    [unarchive_if_not_manually_archived]: no edit is asked for, and the
    thread is taken off the bump list.  The test multiplies the seconds by
    60 where the minutes would need a division. *)
Theorem archived_thread_is_dropped (env : ThreadBumper.Env)
    (thread : ThreadBumper.Thread) (m : ThreadBumper.Message)
    (older : list ThreadBumper.Message) (s : ThreadBumper.State) :
  ThreadBumper.archived thread = true ->
  ThreadBumper.history env thread = ThreadBumper.Done (m :: older) ->
  (1 <= ThreadBumper.auto_archive_duration thread)%Z ->
  (60 * 1000000 * ThreadBumper.auto_archive_duration thread
   <= ThreadBumper.archive_timestamp thread - ThreadBumper.created_at m)%Z ->
  ThreadBumper.unarchive_if_not_manually_archived env thread s
  = (ThreadBumper.Done tt,
     {| ThreadBumper.threads_to_bump :=
          List.filter (fun k => negb (N.eqb k (ThreadBumper.thread_id thread)))
                      (ThreadBumper.threads_to_bump s);
        ThreadBumper.requests := ThreadBumper.requests s |}).
Proof.
  intros HA HH HD HG.
  unfold ThreadBumper.unarchive_if_not_manually_archived, ThreadBumper.bind,
    ThreadBumper.lift.
  rewrite HA, HH; cbn [negb ThreadBumper.ret].
  rewrite (within_a_minute_late thread m HD HG).
  reflexivity.
Qed.

Lemma archived_thread_is_dropped_witness :
  ThreadBumper.unarchive_if_not_manually_archived Sample.discord Sample.help_thread
    Sample.bumping
  = (ThreadBumper.Done tt,
     {| ThreadBumper.threads_to_bump :=
          List.filter
            (fun k => negb (N.eqb k (ThreadBumper.thread_id Sample.help_thread)))
            (ThreadBumper.threads_to_bump Sample.bumping);
        ThreadBumper.requests := ThreadBumper.requests Sample.bumping |}).
Proof.
  apply (@archived_thread_is_dropped Sample.discord Sample.help_thread
           Sample.first_message [] Sample.bumping);
    [reflexivity | reflexivity | cbn; lia | cbn; lia].
Defined.

(** At startup, a thread of the bump list that is gone (not in the cache of
    the bot, and not found by the platform), met after threads that are
    open: the thread is taken off the list, and then
    [ensure_bumped_threads_are_active] raises [AttributeError], for it reads
    [archived] of no thread.  The threads after it are not looked at; and
    since the commands and the listener wait for this task, each of them
    raises the same exception from then on and does nothing. *)
Theorem deleted_thread_stops_startup (env : ThreadBumper.Env)
    (s : ThreadBumper.State) (active later : list N) (gone : N)
    (thread_id in_thread : option N) (after : ThreadBumper.Thread) :
  ThreadBumper.threads_to_bump s = active ++ gone :: later ->
  (forall id, In id active ->
     exists thread, ThreadBumper.get_channel env id = Some thread
                    /\ ThreadBumper.archived thread = false) ->
  ThreadBumper.get_channel env gone = None ->
  ThreadBumper.fetch_channel env gone = ThreadBumper.Raised ThreadBumper.NotFound ->
  let s' :=
    {| ThreadBumper.threads_to_bump :=
         List.filter (fun k => negb (N.eqb k gone)) (ThreadBumper.threads_to_bump s);
       ThreadBumper.requests := ThreadBumper.requests s |} in
  let failed := ThreadBumper.Raised ThreadBumper.AttributeError in
  ThreadBumper.ensure_bumped_threads_are_active env s = (failed, s')
  /\ ThreadBumper.add_thread_to_bump_list env failed thread_id in_thread s'
     = (failed, s')
  /\ ThreadBumper.remove_thread_from_bump_list env failed thread_id in_thread s'
     = (failed, s')
  /\ ThreadBumper.on_thread_update env failed after s' = (failed, s').
Proof.
  intros Hs Hactive Hcache Hfetch s' failed.
  split; [|repeat split].
  unfold ThreadBumper.ensure_bumped_threads_are_active, ThreadBumper.bind at 1,
    ThreadBumper.items.
  rewrite Hs, (ensure_each_skips env active (gone :: later) s Hactive).
  cbn [ThreadBumper.ensure_each]; rewrite Hcache, Hfetch.
  unfold ThreadBumper.bind, ThreadBumper.cache_delete, ThreadBumper.ret,
    ThreadBumper.raise.
  subst s'; rewrite Hs; reflexivity.
Qed.

Lemma deleted_thread_stops_startup_witness :
  let s' :=
    {| ThreadBumper.threads_to_bump :=
         List.filter (fun k => negb (N.eqb k 12))
                     (ThreadBumper.threads_to_bump Sample.bumping);
       ThreadBumper.requests := ThreadBumper.requests Sample.bumping |} in
  let failed := ThreadBumper.Raised ThreadBumper.AttributeError in
  ThreadBumper.ensure_bumped_threads_are_active Sample.discord Sample.bumping
  = (failed, s')
  /\ ThreadBumper.add_thread_to_bump_list Sample.discord failed (Some 13%N) None s'
     = (failed, s')
  /\ ThreadBumper.remove_thread_from_bump_list Sample.discord failed (Some 13%N) None s'
     = (failed, s')
  /\ ThreadBumper.on_thread_update Sample.discord failed Sample.help_thread s'
     = (failed, s').
Proof.
  apply (@deleted_thread_stops_startup Sample.discord Sample.bumping
           [10%N] [11%N] 12%N (Some 13%N) None Sample.help_thread).
  - reflexivity.
  - intros id [<-|[]]; exists Sample.open_thread; split; reflexivity.
  - reflexivity.
  - reflexivity.
Defined.

(** The two commands on the list, once the startup task has ended well and
    when the replies are delivered.  [add] with an id that is not 0 puts the
    thread on the list and touches no other thread; [remove] takes it off
    and touches no other thread; so a thread added and then removed is not
    on the list, and the list holds the threads it held before, but for this
    one.  Each command replies once. *)
Theorem add_then_remove (env : ThreadBumper.Env) (s : ThreadBumper.State)
    (p : positive) (in_thread in_thread' : option N) :
  ThreadBumper.send env = ThreadBumper.Done tt ->
  let id := Npos p in
  let ok := ThreadBumper.Done tt in
  let added := ThreadBumper.add_thread_to_bump_list env ok (Some id) in_thread s in
  let removed :=
    ThreadBumper.remove_thread_from_bump_list env ok (Some id) in_thread' (snd added) in
  fst added = ok
  /\ In id (ThreadBumper.threads_to_bump (snd added))
  /\ (forall k, k <> id ->
        (In k (ThreadBumper.threads_to_bump (snd added))
         <-> In k (ThreadBumper.threads_to_bump s)))
  /\ fst removed = ok
  /\ ~ In id (ThreadBumper.threads_to_bump (snd removed))
  /\ (forall k, k <> id ->
        (In k (ThreadBumper.threads_to_bump (snd removed))
         <-> In k (ThreadBumper.threads_to_bump s)))
  /\ ThreadBumper.requests (snd removed)
     = ThreadBumper.requests s
         ++ [ThreadBumper.Reply_added id; ThreadBumper.Reply_removed id].
Proof.
  intros Hsend id ok added removed.
  subst removed added ok id.
  unfold ThreadBumper.add_thread_to_bump_list, ThreadBumper.remove_thread_from_bump_list,
    ThreadBumper.bind, ThreadBumper.lift, ThreadBumper.cache_set,
    ThreadBumper.cache_delete, ThreadBumper.ask.
  cbn [ThreadBumper.thread_of fst snd ThreadBumper.threads_to_bump
       ThreadBumper.requests].
  rewrite Hsend; cbn [fst snd ThreadBumper.threads_to_bump ThreadBumper.requests].
  assert (forall k,
            In k (if existsb (N.eqb (Npos p)) (ThreadBumper.threads_to_bump s)
                  then ThreadBumper.threads_to_bump s
                  else ThreadBumper.threads_to_bump s ++ [Npos p])
            <-> In k (ThreadBumper.threads_to_bump s) \/ k = Npos p) as Hset.
  { intros k.
    destruct (existsb (N.eqb (Npos p)) (ThreadBumper.threads_to_bump s)) eqn:E.
    - split; [auto | intros [H| ->]; [exact H|]].
      apply existsb_exists in E; destruct E as (x & Hx & Heq).
      apply N.eqb_eq in Heq; subst x; exact Hx.
    - rewrite in_app_iff; cbn; intuition. }
  split; [reflexivity|].
  split; [apply Hset; right; reflexivity|].
  split.
  { intros k Hk; rewrite Hset; intuition. }
  split; [reflexivity|].
  split.
  { intros Hin; apply filter_In in Hin; destruct Hin as [_ Hin].
    rewrite N.eqb_refl in Hin; discriminate. }
  split.
  { intros k Hk; rewrite filter_In, Hset, negb_true_iff, N.eqb_neq; intuition. }
  rewrite <- app_assoc; reflexivity.
Qed.

Lemma add_then_remove_witness :
  let id := Npos 13 in
  let ok := ThreadBumper.Done tt in
  let added :=
    ThreadBumper.add_thread_to_bump_list Sample.discord ok (Some id) None Sample.bumping in
  let removed :=
    ThreadBumper.remove_thread_from_bump_list Sample.discord ok (Some id) None
      (snd added) in
  fst added = ok
  /\ In id (ThreadBumper.threads_to_bump (snd added))
  /\ (forall k, k <> id ->
        (In k (ThreadBumper.threads_to_bump (snd added))
         <-> In k (ThreadBumper.threads_to_bump Sample.bumping)))
  /\ fst removed = ok
  /\ ~ In id (ThreadBumper.threads_to_bump (snd removed))
  /\ (forall k, k <> id ->
        (In k (ThreadBumper.threads_to_bump (snd removed))
         <-> In k (ThreadBumper.threads_to_bump Sample.bumping)))
  /\ ThreadBumper.requests (snd removed)
     = ThreadBumper.requests Sample.bumping
         ++ [ThreadBumper.Reply_added id; ThreadBumper.Reply_removed id].
Proof.
  apply (@add_then_remove Sample.discord Sample.bumping 13%positive None None).
  reflexivity.
Defined.
